(** * Kalamar: lazy item properties and the DB-API storage adapter

    A shallow embedding of [kalamar/item.py] and [kalamar/storage/dbapi.py]
    (Python 2).  Python objects that are shared by reference (the dict given
    to an item as its storage properties) live in a heap of dicts; everything
    an object owns alone is a field of its record.  Exceptions are values of
    [exn]; every method is a computation in a small state-and-exception
    monad. *)

From Stdlib Require Import String Ascii ZArith Lia DecimalString DecimalNat.
From stdpp Require Import base option list gmap strings fin_maps.

Local Open Scope string_scope.

(** ** Python values, exceptions, results *)

(** A callable of [kalamar.utils.operators] (the module is not part of the
    sources at hand): known by its name only. *)
Inductive func := Func (name : string).

#[local] Set Warnings "-register-all".
Inductive value :=
| VNone
| VBool (b : bool)
| VInt (n : Z)
| VStr (s : string)
| VFunc (f : func)
| VTuple (l : list value).

Inductive exn :=
| KeyError
| IndexError
| TypeError
| ValueError
| NameError (name : string)
| UnboundLocalError (name : string)
| AttributeError (name : string)
| NotImplementedError
| ManyItemsUpdatedError
| UnsupportedParameterStyleError
| ForeignError (tag : string).   (* raised inside a collaborator *)

Inductive result (A : Type) :=
| Ok (a : A)
| Raise (e : exn).
Arguments Ok {A} a.
Arguments Raise {A} e.

Definition is_KeyError (e : exn) : bool :=
  match e with KeyError => true | _ => false end.

Definition is_ok {A} (r : result A) : bool :=
  match r with Ok _ => true | Raise _ => false end.

(** ** The monad: state of type [S], exceptions in [exn] *)

Definition M (S A : Type) : Type := S -> S * result A.

Definition ret {S A} (a : A) : M S A := fun s => (s, Ok a).
Definition raise {S A} (e : exn) : M S A := fun s => (s, Raise e).
Definition bind {S A B} (m : M S A) (k : A -> M S B) : M S B :=
  fun s => match m s with
           | (s', Ok a) => k a s'
           | (s', Raise e) => (s', Raise e)
           end.
Definition get {S} : M S S := fun s => (s, Ok s).
Definition put {S} (s : S) : M S unit := fun _ => (s, Ok tt).
Definition modify {S} (f : S -> S) : M S unit := fun s => (f s, Ok tt).
Definition lift_result {S A} (r : result A) : M S A := fun s => (s, r).

(** [try: m except <handled>: h].  What [m] did to the state before it raised
    stays done. *)
Definition try_except {S A} (m : M S A) (handled : exn -> bool) (h : M S A)
  : M S A :=
  fun s => match m s with
           | (s', Raise e) => if handled e then h s' else (s', Raise e)
           | r => r
           end.

Declare Scope py_scope.
Delimit Scope py_scope with py.
Notation "x <- m ;; k" := (bind m (fun x => k))
  (at level 100, m at next level, right associativity) : py_scope.
Notation "m ;;; k" := (bind m (fun _ => k))
  (at level 100, right associativity) : py_scope.
Local Open Scope py_scope.

(** [for x in l: body x] *)
Fixpoint for_each {S A} (l : list A) (body : A -> M S unit) : M S unit :=
  match l with
  | [] => ret tt
  | x :: l' => body x ;;; for_each l' body
  end.

(** ** Dicts with string keys *)

Definition dict_getitem {V} (d : gmap string V) (k : string) : result V :=
  match d !! k with
  | Some v => Ok v
  | None => Raise KeyError
  end.

(** [d[k] = v] on a dict: inserts or replaces, and never raises. *)
Definition dict_setitem {V} (d : gmap string V) (k : string) (v : V)
  : result (gmap string V) :=
  Ok (<[k := v]> d).

Definition dict_delitem {V} (d : gmap string V) (k : string)
  : result (gmap string V) :=
  match d !! k with
  | Some _ => Ok (delete k d)
  | None => Raise KeyError
  end.

(** [d.get(k, dflt)] *)
Definition dict_get {V} (d : gmap string V) (k : string) (dflt : V) : V :=
  default dflt (d !! k).

(** [d.keys()]: a list, in the order of the dict. *)
Definition dict_keys {V} (d : gmap string V) : list string :=
  (map_to_list d).*1.

(** [d.update(other)]: the entries of [other] win. *)
Definition dict_update {V} (d other : gmap string V) : gmap string V :=
  other ∪ d.

(** [dict(pairs)]: a later pair replaces an earlier one with the same key. *)
Definition dict_of_pairs {V} (pairs : list (string * V)) : gmap string V :=
  foldl (fun d kv => <[kv.1 := kv.2]> d) ∅ pairs.

(** ** Module-level names

    A bare name inside a method is looked up among the method's locals, the
    module's globals and the builtins; the attributes of the enclosing class
    are not in scope.  The names looked up below are no locals and no
    builtins, which leaves the globals of the module. *)

Definition item_module_globals : list string :=
  ["utils"; "deepcopy"; "Item"; "AtomItem"; "CapsuleItem"; "ItemProperties"].

Definition dbapi_module_globals : list string :=
  ["AccessPoint"; "utils"; "Item"; "array"; "_opener"; "DBAPIStorage"].

Definition lookup_global (globals : list string) (name : string)
  : result unit :=
  if bool_decide (name ∈ globals) then Ok tt else Raise (NameError name).

(** ** The heap of shared dicts *)

Definition loc := nat.

Abbreviation heap := (gmap loc (gmap string value)).

Definition heap_dict (h : heap) (l : loc) : gmap string value :=
  default ∅ (h !! l).

(** The [{}] that is the default of [Item.__init__]'s [accessor_properties]:
    one dict object, made when the [def] is executed. *)
Definition Item_init_default : loc := 0.
(** The [{}] that is the default of [ItemProperties.__init__]. *)
Definition ItemProperties_init_default : loc := 1.

(** The heap once the module is imported. *)
Definition module_heap : heap :=
  <[ItemProperties_init_default := ∅]> (<[Item_init_default := ∅]> ∅).

(** ** item.py *)

(** What a file-like object gives: its content. *)
Definition stream := string.

(** The calls an item keeps a record of; the record is there to state how
    often something was called and is read by no method. *)
Inductive call :=
| CallParseData          (* Item._parse_data *)
| CallOpener             (* self._opener() *)
| CallCustomParseData.   (* self._custom_parse_data() *)

Definition call_eqb (a b : call) : bool :=
  match a, b with
  | CallParseData, CallParseData
  | CallOpener, CallOpener
  | CallCustomParseData, CallCustomParseData => true
  | _, _ => false
  end.

(** [ItemProperties(dict)]: [dict_items] are the entries of the dict the
    object itself is, reached in the methods through [super]. *)
Record ItemProperties := mkItemProperties {
  storage_properties : loc;
  storage_properties_old : gmap string value;
  _loaded : bool;
  dict_items : gmap string value
}.

Record Item := mkItem {
  _opener : result stream;
  _stream : option stream;
  properties : ItemProperties;
  aliases : gmap string string;
  aliases_rev : gmap string nat;
  calls : list call
}.

Definition set_loaded (b : bool) (p : ItemProperties) : ItemProperties :=
  mkItemProperties (storage_properties p) (storage_properties_old p) b
                   (dict_items p).
Definition set_dict_items (d : gmap string value) (p : ItemProperties)
  : ItemProperties :=
  mkItemProperties (storage_properties p) (storage_properties_old p)
                   (_loaded p) d.
Definition set_properties (p : ItemProperties) (it : Item) : Item :=
  mkItem (_opener it) (_stream it) p (aliases it) (aliases_rev it) (calls it).
Definition set_stream (s : option stream) (it : Item) : Item :=
  mkItem (_opener it) s (properties it) (aliases it) (aliases_rev it)
         (calls it).
Definition record_call (c : call) (it : Item) : Item :=
  mkItem (_opener it) (_stream it) (properties it) (aliases it)
         (aliases_rev it) (c :: calls it).

(** How often [c] was called on the item. *)
Fixpoint count_in (c : call) (l : list call) : nat :=
  match l with
  | [] => 0
  | c' :: l' => (if call_eqb c c' then 1 else 0) + count_in c l'
  end.

Definition count_calls (c : call) (it : Item) : nat := count_in c (calls it).

(** The state a method of an item runs in. *)
Definition IState : Type := heap * Item.

Definition the_item : M IState Item := fun s => (s, Ok s.2).
Definition the_heap : M IState heap := fun s => (s, Ok s.1).
Definition update_item (f : Item -> Item) : M IState unit :=
  modify (fun s : IState => (s.1, f s.2)).
Definition update_heap (f : heap -> heap) : M IState unit :=
  modify (fun s : IState => (f s.1, s.2)).

(** [ItemProperties.__init__(self, item, storage_properties={})]:
    the dict given is kept as it is, by reference; only the snapshot is a
    copy. *)
Definition ItemProperties_init (h : heap) (storage : option loc)
  : ItemProperties :=
  let sp := default ItemProperties_init_default storage in
  {| storage_properties := sp;
     storage_properties_old := heap_dict h sp;
     _loaded := false;
     dict_items := ∅ |}.

(** [Item.__init__(self, access_point, opener, accessor_properties={})];
    of the access point only [parser_aliases] is read. *)
Definition Item_init (h : heap) (parser_aliases : gmap string string)
    (opener : result stream) (accessor_properties : option loc) : Item :=
  let ap := default Item_init_default accessor_properties in
  {| _opener := opener;
     _stream := None;
     properties := ItemProperties_init h (Some ap);
     aliases := parser_aliases;
     aliases_rev :=
       dict_of_pairs (imap (fun a b => (b, a)) (dict_keys parser_aliases));
     calls := [] |}.

Section Kalamar.

(** The two methods a parser class must implement; in [Item] itself both
    raise [NotImplementedError].  They see the item and the heap, and change
    neither. *)
Variable _custom_parse_data : heap -> Item -> result (gmap string value).
Variable _serialize : heap -> Item -> gmap string value -> result string.

(** [Item._open] *)
Definition Item_open : M IState unit :=
  it <- the_item ;;
  match _stream it with
  | None =>
      update_item (record_call CallOpener) ;;;
      s <- lift_result (_opener it) ;;
      update_item (set_stream (Some s))
  | Some _ => ret tt
  end.

(** [Item._parse_data] *)
Definition Item_parse_data : M IState unit :=
  update_item (record_call CallParseData) ;;;
  Item_open ;;;
  update_item (record_call CallCustomParseData) ;;;
  props <- (fun s : IState => (s, _custom_parse_data s.1 s.2)) ;;
  (* self.properties.update(props): dict.update, not __setitem__ *)
  update_item (fun it =>
    set_properties
      (set_dict_items (dict_update (dict_items (properties it)) props)
                      (properties it)) it).

(** [ItemProperties.__getitem__] *)
Definition ItemProperties_getitem (key : string) : M IState value :=
  it <- the_item ;;
  (if negb (_loaded (properties it)) then
     Item_parse_data ;;;
     update_item
       (fun it => set_properties (set_loaded true (properties it)) it)
   else ret tt) ;;;
  it <- the_item ;;
  h <- the_heap ;;
  let key := dict_get (aliases it) key key in
  try_except
    (lift_result
       (dict_getitem (heap_dict h (storage_properties (properties it))) key))
    is_KeyError
    (try_except
       (lift_result (dict_getitem (dict_items (properties it)) key))
       is_KeyError
       (ret VNone)).

(** [ItemProperties.__setitem__] *)
Definition ItemProperties_setitem (key : string) (v : value)
  : M IState unit :=
  it <- the_item ;;
  let key := dict_get (aliases it) key key in
  try_except
    (h <- the_heap ;;
     let sp := storage_properties (properties it) in
     d <- lift_result (dict_setitem (heap_dict h sp) key v) ;;
     update_heap (fun h => <[sp := d]> h))
    is_KeyError
    (d <- lift_result (dict_setitem (dict_items (properties it)) key v) ;;
     update_item (fun it =>
       set_properties (set_dict_items d (properties it)) it)).

(** [dict(gen)] for the generator of [Item.serialize]: the pairs are made one
    key after the other, each value by [self.properties[key]]. *)
Fixpoint serialize_pairs (keys : list string)
  : M IState (list (string * value)) :=
  match keys with
  | [] => ret []
  | key :: keys' =>
      it <- the_item ;;
      let name := dict_get (aliases it) key key in
      v <- ItemProperties_getitem key ;;
      rest <- serialize_pairs keys' ;;
      ret ((name, v) :: rest)
  end.

(** The first statement of [Item.serialize], [props = dict(...)].
    [self.properties.keys()] is [dict.keys]: the class does not override
    it. *)
Definition serialize_props : M IState (gmap string value) :=
  it <- the_item ;;
  pairs <- serialize_pairs (dict_keys (dict_items (properties it))) ;;
  ret (dict_of_pairs pairs).

(** [Item.serialize].  Its last line calls the bare name [_serialize]; were
    that name bound, the call would be the one below. *)
Definition Item_serialize : M IState string :=
  props <- serialize_props ;;
  lift_result (lookup_global item_module_globals "_serialize") ;;;
  (fun s : IState => (s, _serialize s.1 s.2 props)).

(** Reads and writes of properties, done one after the other on an item;
    an exception ends the one operation that raised it. *)
Inductive op :=
| Read (key : string)
| Write (key : string) (v : value).

Definition run_op (o : op) (s : IState) : IState :=
  match o with
  | Read key => (ItemProperties_getitem key s).1
  | Write key v => (ItemProperties_setitem key v s).1
  end.

Definition run_ops (ops : list op) (s : IState) : IState :=
  foldl (fun s o => run_op o s) s ops.

(** [AtomItem.read], [AtomItem.write] *)
Definition AtomItem_read : M IState value :=
  ItemProperties_getitem "_content".
Definition AtomItem_write (v : value) : M IState unit :=
  ItemProperties_setitem "_content" v.

(** ** Strings and dynamically typed operations *)

(** [str(n)] for a natural number. *)
Definition str_nat (n : nat) : string :=
  NilEmpty.string_of_uint (Nat.to_uint n).

Definition str_Z (n : Z) : string :=
  NilZero.string_of_int (Z.to_int n).

(** [s.split(sep)] for a one-character separator. *)
Fixpoint split (sep : ascii) (s : string) : list string :=
  match s with
  | EmptyString => [EmptyString]
  | String c r =>
      if Ascii.eqb c sep then EmptyString :: split sep r
      else match split sep r with
           | [] => [String c EmptyString]
           | part :: parts => String c part :: parts
           end
  end.

(** [''.join(parts)] *)
Definition join (parts : list string) : string := String.concat "" parts.

Definition chars (s : string) : list string :=
  map (fun c => String c EmptyString) (list_ascii_of_string s).

Fixpoint py_repr (v : value) : string :=
  match v with
  | VNone => "None"
  | VBool true => "True"
  | VBool false => "False"
  | VInt n => str_Z n
  | VStr s => "'" +:+ s +:+ "'"
  | VFunc (Func name) => "<function " +:+ name +:+ ">"
  | VTuple l => "(" +:+ String.concat ", " (map py_repr l) +:+ ")"
  end.

(** [str(v)], which is what [%s] formats with. *)
Definition py_str (v : value) : string :=
  match v with
  | VStr s => s
  | _ => py_repr v
  end.

(** Position [i] of a sequence of length [n], negative ones from the end. *)
Definition py_position (n : nat) (i : Z) : result nat :=
  let j := if (i <? 0)%Z then (i + Z.of_nat n)%Z else i in
  if ((0 <=? j) && (j <? Z.of_nat n))%Z then Ok (Z.to_nat j)
  else Raise IndexError.

(** [l[i]] on a list. *)
Definition list_index {A} (l : list A) (i : Z) : result A :=
  match py_position (length l) i with
  | Ok j => match l !! j with Some x => Ok x | None => Raise IndexError end
  | Raise e => Raise e
  end.

(** [l[:-1]] *)
Definition but_last {A} (l : list A) : list A := removelast l.

(** [v[i]] *)
Definition py_index (v : value) (i : Z) : result value :=
  match v with
  | VStr s => match list_index (chars s) i with
              | Ok c => Ok (VStr c)
              | Raise e => Raise e
              end
  | VTuple l => list_index l i
  | _ => Raise TypeError
  end.

(** [for x in v] *)
Definition py_iter (v : value) : result (list value) :=
  match v with
  | VStr s => Ok (map VStr (chars s))
  | VTuple l => Ok l
  | _ => Raise TypeError
  end.

(** [a + b] *)
Definition py_add (a b : value) : result value :=
  match a, b with
  | VStr x, VStr y => Ok (VStr (x +:+ y))
  | VInt x, VInt y => Ok (VInt (x + y))
  | VTuple x, VTuple y => Ok (VTuple (x ++ y)%list)
  | _, _ => Raise TypeError
  end.

Definition as_str (v : value) : result string :=
  match v with VStr s => Ok s | _ => Raise TypeError end.

(** ** dbapi.py *)

(** The parameters handed to [cursor.execute]: a sequence, or a dict once
    [_format_request] has named them. *)
Inductive params :=
| PList (l : list value)
| PDict (d : gmap string value).

(** What the adapter does on the connection and its cursor, newest first. *)
Inductive db_event :=
| EvCursor                                         (* connection.cursor() *)
| EvExecute (request : string) (parameters : option params)
| EvRowcount                                       (* cursor.rowcount() *)
| EvFetchmany                                      (* cursor.fetchmany() *)
| EvRollback                                       (* connection.rollback() *)
| EvCommit                                         (* cursor.commit() *)
| EvClose.                                         (* cursor.close() *)

(** The DB-API driver behind a connection is a collaborator: what it answers
    is a function of what was done on it so far. *)
Record Driver := mkDriver {
  on_cursor : list db_event -> result unit;
  on_execute : list db_event -> string -> option params -> result unit;
  on_rowcount : list db_event -> result Z;
  on_fetchmany : list db_event -> result (list value);
  description : list db_event -> list value;
  on_rollback : list db_event -> result unit;
  on_commit : list db_event -> result unit;
  on_close : list db_event -> result unit
}.

Record Connection := mkConnection {
  paramstyle : string;
  driver : Driver
}.

(** [DBAPIStorage.operators] as the class defines it. *)
Definition DBAPIStorage_operators : gmap string string :=
  dict_of_pairs [("=", "="); ("!=", "!="); (">", ">"); (">=", ">=");
                 ("<", "<"); ("<=", "<=")].

(** An adapter: the methods a descendant must override with what they return,
    the configuration, and the two operator tables.  [operators_from_function]
    is read by [_storage_search] though [__init__] assigns
    [_operatorsfrom_function]; it is taken as given, with the names of the
    comparison functions for keys.  [apply_func] calls such a function, and
    [parser_formats] lists the [format] of every subclass of [Item]. *)
Record DBAPIStorage := mkDBAPIStorage {
  get_connection : result (Connection * string);
  _get_primary_keys : result (list string);
  config : gmap string string;
  operators : gmap string string;
  operators_from_function : gmap string string;
  apply_func : func -> value -> value -> result bool;
  parser_formats : list (option string)
}.

Definition DB : Type := list db_event.

Definition db_do {A} (ev : db_event) (answer : list db_event -> result A)
  : M DB A :=
  fun log => (ev :: log, answer log).

(** [self.operators_from_function[k]]: no key of the table is anything but a
    function. *)
Definition operators_from_function_getitem (self : DBAPIStorage) (k : value)
  : result string :=
  match k with
  | VFunc (Func name) => dict_getitem (operators_from_function self) name
  | _ => Raise KeyError
  end.

(** [_format_request]: the parts of the request around the markers, with the
    markers the style wants; [new_request_parts] is the generator of the
    source, [marker i] what it puts before the part of index [i]. *)
Definition new_request_parts (marker : nat -> string) (parts : list string)
  : result (list string) :=
  match list_index parts 0 with
  | Ok first =>
      Ok (first :: imap (fun i part => marker i +:+ part) (tail parts))
  | Raise e => Raise e
  end.

Definition numeric_marker (i : nat) : string := ":" +:+ str_nat (i + 1).
Definition named_marker (i : nat) : string := ":name" +:+ str_nat i.

Definition DBAPIStorage_format_request {S} (self : DBAPIStorage)
    (request : string) (parameters : list value) : M S (string * params) :=
  ct <- lift_result (get_connection self) ;;
  let style := paramstyle ct.1 in
  if String.eqb style "qmark" then
    ret (request, PList parameters)
  else if String.eqb style "numeric" then
    parts <- lift_result
               (new_request_parts numeric_marker (split "?" request)) ;;
    ret (join parts, PList parameters)
  else if String.eqb style "named" then
    parts <- lift_result
               (new_request_parts named_marker (split "?" request)) ;;
    ret (join parts,
         PDict (dict_of_pairs
                  (imap (fun i v => ("name" +:+ str_nat i, v)) parameters)))
  else if String.eqb style "format" then
    raise NotImplementedError
  else if String.eqb style "pyformat" then
    raise NotImplementedError
  else
    (* UnsupportedParameterStyleError(style): a bare name, and no [raise] *)
    lift_result
      (lookup_global dbapi_module_globals "UnsupportedParameterStyleError") ;;;
    ret (request, PList parameters).

(** A condition [(name, function, value)] and the tuple it is. *)
Definition condition : Type := string * func * value.

Definition condition_tuple (c : condition) : value :=
  VTuple [VStr c.1.1; VFunc c.1.2; c.2].

(** The local variables of [_storage_search] that its loops change. *)
Record search_locals := mkSearchLocals {
  request : string;
  parameters : list value;
  remaining_conditions : list value
}.

(** The body both of the loop and of the statements for the last condition:
    [ending] is ["=? AND "] in the loop and ["=?;"] after it. *)
Definition push_condition (self : DBAPIStorage) (ending : string)
    (cond : value) (L : search_locals) : M DB search_locals :=
  c1 <- lift_result (py_index cond 1) ;;
  oper <- lift_result (operators_from_function_getitem self c1) ;;
  try_except
    (_ <- lift_result (dict_getitem (operators self) oper) ;;
     c0 <- lift_result (py_index cond 0) ;;
     clause <- lift_result (py_add c0 (VStr ending)) ;;
     req <- lift_result (py_add (VStr (request L)) clause) ;;
     req <- lift_result (as_str req) ;;
     c2 <- lift_result (py_index cond 2) ;;
     ret (mkSearchLocals req (parameters L ++ [c2])%list
                         (remaining_conditions L)))
    is_KeyError
    (ret (mkSearchLocals (request L) (parameters L)
                         (remaining_conditions L ++ [cond])%list)).

Fixpoint push_conditions (self : DBAPIStorage) (conds : list value)
    (L : search_locals) : M DB search_locals :=
  match conds with
  | [] => ret L
  | cond :: conds' =>
      L' <- push_condition self "=? AND " cond L ;;
      push_conditions self conds' L'
  end.

(** [dict(zip(cur.description, line))], kept as the pairs: the keys are
    whatever the description holds. *)
Definition row_dict (descr : list value) (line : value)
  : result (list (value * value)) :=
  match py_iter line with
  | Ok cells => Ok (zip descr cells)
  | Raise e => Raise e
  end.

Fixpoint value_eqb (a b : value) : bool :=
  match a, b with
  | VNone, VNone => true
  | VBool x, VBool y => Bool.eqb x y
  | VInt x, VInt y => (x =? y)%Z
  | VStr x, VStr y => String.eqb x y
  | VFunc (Func x), VFunc (Func y) => String.eqb x y
  | VTuple x, VTuple y =>
      (fix all2 (x y : list value) : bool :=
         match x, y with
         | [], [] => true
         | u :: x', w :: y' => value_eqb u w && all2 x' y'
         | _, _ => false
         end) x y
  | _, _ => false
  end.

(** [line[k]] on such a dict: the last pair with the key counts. *)
Definition row_getitem (line : list (value * value)) (k : value)
  : result value :=
  match filter (fun kv => value_eqb kv.1 k = true) line with
  | [] => Raise KeyError
  | kv :: kvs => Ok (List.last kvs kv).2
  end.

(** [for name, funct, value in remaining_conditions: ...] with its [break]:
    whether the line passes. *)
Fixpoint line_ok (self : DBAPIStorage) (line : list (value * value))
    (remaining : list value) : result bool :=
  match remaining with
  | [] => Ok true
  | cond :: remaining' =>
      match py_iter cond with
      | Ok [name; VFunc funct; v] =>
          match row_getitem line name with
          | Ok cell =>
              match apply_func self funct cell v with
              | Ok true => line_ok self line remaining'
              | Ok false => Ok false
              | Raise e => Raise e
              end
          | Raise e => Raise e
          end
      | Ok [_; _; _] => Raise TypeError       (* the function is not callable *)
      | Ok _ => Raise ValueError              (* not three values to unpack *)
      | Raise e => Raise e
      end
  end.

(** [Item.get_item_parser(format, *args)]: the first subclass whose [format]
    equals the one asked for is instantiated with the arguments. *)
Definition Item_get_item_parser {S} (formats : list (option string))
    (format : value) (instantiate : M S Item) : M S Item :=
  if existsb (fun f => match f with
                       | Some f => value_eqb (VStr f) format
                       | None => value_eqb VNone format
                       end) formats
  then instantiate
  else
    _ <- lift_result (py_add (VStr "Unknown format: ") format) ;;
    raise ValueError.

(** One line of a fetched batch.  No local or global is called [format]: in
    the call it is the builtin function.  The arguments [(opener, line)] land
    in [access_point] and [opener], so that [Item.__init__] would ask the
    opener function for [parser_aliases]. *)
Definition search_line (self : DBAPIStorage) (descr : list value)
    (remaining : list value) (line : value) (items_ok : list Item)
  : M DB (list Item) :=
  line <- lift_result (row_dict descr line) ;;
  ok <- lift_result (line_ok self line remaining) ;;
  if ok : bool then
    cc <- lift_result (dict_getitem (config self) "content_column") ;;
    _ <- lift_result (row_getitem line (VStr cc)) ;;
    it <- Item_get_item_parser (parser_formats self) (VFunc (Func "format"))
            (raise (AttributeError "parser_aliases")) ;;
    ret (items_ok ++ [it])%list
  else ret items_ok.

Fixpoint search_lines (self : DBAPIStorage) (descr : list value)
    (remaining : list value) (lines : list value) (items_ok : list Item)
  : M DB (list Item) :=
  match lines with
  | [] => ret items_ok
  | line :: lines' =>
      items_ok' <- search_line self descr remaining line items_ok ;;
      search_lines self descr remaining lines' items_ok'
  end.

(** [while res: ...; res = cur.fetchmany()], for at most [fuel] batches. *)
Fixpoint search_batches (fuel : nat) (self : DBAPIStorage) (drv : Driver)
    (remaining : list value) (res : list value) (items_ok : list Item)
  : M DB (option (list Item)) :=
  match res with
  | [] => ret (Some items_ok)
  | _ :: _ =>
      match fuel with
      | O => ret None
      | S fuel' =>
          log <- get ;;
          items_ok' <- search_lines self (description drv log) remaining res
                                    items_ok ;;
          res' <- db_do EvFetchmany (on_fetchmany drv) ;;
          search_batches fuel' self drv remaining res' items_ok'
      end
  end.

(** [DBAPIStorage._storage_search]; [None] when the fuel did not last. *)
Definition DBAPIStorage_storage_search (fuel : nat) (self : DBAPIStorage)
    (conditions : list condition) : M DB (option (list Item)) :=
  ct <- lift_result (get_connection self) ;;
  let drv := driver ct.1 in
  let L := mkSearchLocals ("SELECT * FROM " +:+ ct.2 +:+ " WHERE ") [] [] in
  (* for cond in conditions[-1]: *)
  lastc <- lift_result (list_index (map condition_tuple conditions) (-1)) ;;
  conds <- lift_result (py_iter lastc) ;;
  L <- push_conditions self conds L ;;
  lastc <- lift_result (list_index (map condition_tuple conditions) (-1)) ;;
  L <- push_condition self "=?;" lastc L ;;
  rp <- DBAPIStorage_format_request self (request L) (parameters L) ;;
  db_do EvCursor (on_cursor drv) ;;;
  db_do (EvExecute rp.1 (Some rp.2))
        (fun log => on_execute drv log rp.1 (Some rp.2)) ;;;
  res <- db_do EvFetchmany (on_fetchmany drv) ;;
  items_ok <- search_batches fuel self drv (remaining_conditions L) res [] ;;
  db_do EvClose (on_close drv) ;;;
  ret items_ok.

(** *** [save] *)

Definition SaveState : Type := IState * DB.

Definition on_item {A} (m : M IState A) : M SaveState A :=
  fun s => let r := m s.1 in ((r.1, s.2), r.2).
Definition on_db {A} (m : M DB A) : M SaveState A :=
  fun s => let r := m s.2 in ((s.1, r.1), r.2).

(** [del item.properties[key]]: [dict.__delitem__], which the class does not
    override. *)
Definition ItemProperties_delitem (key : string) : M IState unit :=
  it <- the_item ;;
  d <- lift_result (dict_delitem (dict_items (properties it)) key) ;;
  update_item
    (fun it => set_properties (set_dict_items d (properties it)) it).

(** [for key in keys: req.extend(piece key item.properties[key])]; gives the
    request and the last [key] bound. *)
Fixpoint extend_with_properties (keys : list string)
    (piece : string -> value -> string) (req : string) (key : option string)
  : M SaveState (string * option string) :=
  match keys with
  | [] => ret (req, key)
  | k :: keys' =>
      v <- on_item (ItemProperties_getitem k) ;;
      extend_with_properties keys' piece (req +:+ piece k v) (Some k)
  end.

Definition last_key (keys : list string) (key : option string)
  : option string :=
  match keys with
  | [] => key
  | k :: _ => Some (List.last keys k)
  end.

(** [DBAPIStorage.save] *)
Definition DBAPIStorage_save (self : DBAPIStorage) : M SaveState unit :=
  ct <- lift_result (get_connection self) ;;
  let drv := driver ct.1 in
  let table := ct.2 in
  let req := "UPDATE " +:+ table +:+ " SET " in
  pk <- lift_result (_get_primary_keys self) ;;
  s <- get ;;
  let keys :=
    dict_keys (heap_dict s.1.1 (storage_properties (properties s.1.2))) in
  content <- on_item Item_serialize ;;
  cc <- lift_result (dict_getitem (config self) "content_column") ;;
  on_item (ItemProperties_setitem cc (VStr content)) ;;;
  (* There is no field '_content' in the DB. *)
  on_item (ItemProperties_delitem "_content") ;;;
  rk <- extend_with_properties (but_last keys)
          (fun k v => k +:+ " = " +:+ py_str v +:+ " , ") req None ;;
  klast <- lift_result (list_index keys (-1)) ;;
  v <- on_item (ItemProperties_getitem klast) ;;
  let req := rk.1 +:+ klast +:+ " = " +:+ py_str v +:+ " WHERE" in
  (* for key in pk[-1]: the characters of the last primary key *)
  pklast <- lift_result (list_index pk (-1)) ;;
  rk <- extend_with_properties (chars pklast)
          (fun k v => " " +:+ k +:+ " = " +:+ py_str v) req rk.2 ;;
  v <- on_item (ItemProperties_getitem pklast) ;;
  let req := rk.1 +:+ " " +:+ pklast +:+ " = " +:+ py_str v +:+ ";" in
  let key := rk.2 in
  on_db (db_do EvCursor (on_cursor drv)) ;;;
  on_db (db_do (EvExecute req None)
               (fun log => on_execute drv log req None)) ;;;
  n <- on_db (db_do EvRowcount (on_rowcount drv)) ;;
  (if (n =? 0)%Z then
     (* item does not exist. Let's do an insert. *)
     let req := "INSERT INTO " +:+ table +:+ " ( " in
     let req := req +:+ join (map (fun k => k +:+ " , ") (but_last keys)) in
     let key := last_key (but_last keys) key in
     klast <- lift_result (list_index keys (-1)) ;;
     let req := req +:+ klast +:+ " ) VALUES ( " in
     rk <- extend_with_properties (but_last keys)
             (fun _ v => py_str v +:+ " , ") req key ;;
     (* item.properties[key[-1]] *)
     key <- match rk.2 with
            | Some k => ret k
            | None => raise (UnboundLocalError "key")
            end ;;
     c <- lift_result (list_index (chars key) (-1)) ;;
     v <- on_item (ItemProperties_getitem c) ;;
     let req := rk.1 +:+ py_str v +:+ " );" in
     on_db (db_do (EvExecute req None)
                  (fun log => on_execute drv log req None))
   else if (1 <? n)%Z then
     (* problem ocurred *)
     on_db (db_do EvRollback (on_rollback drv)) ;;;
     on_db (db_do EvClose (on_close drv)) ;;;
     lift_result
       (lookup_global dbapi_module_globals "ManyItemsUpdatedError") ;;;
     raise ManyItemsUpdatedError
   else ret tt) ;;;
  (* everythings fine *)
  on_db (db_do EvCommit (on_commit drv)) ;;;
  on_db (db_do EvClose (on_close drv)).

(** *** [remove], [get_storage_properties], [_opener] *)

(** [DBAPIStorage.remove] *)
Definition DBAPIStorage_remove (self : DBAPIStorage) : M SaveState unit :=
  ct <- lift_result (get_connection self) ;;
  let drv := driver ct.1 in
  let req := "REMOVE FROM " +:+ ct.2 +:+ " WHERE " in
  pk <- lift_result (_get_primary_keys self) ;;
  rk <- extend_with_properties (but_last pk)
          (fun k v => k +:+ " = " +:+ py_str v +:+ " AND ") req None ;;
  pklast <- lift_result (list_index pk (-1)) ;;
  v <- on_item (ItemProperties_getitem pklast) ;;
  let req := rk.1 +:+ pklast +:+ " = " +:+ py_str v +:+ " ;" in
  on_db (db_do EvCursor (on_cursor drv)) ;;;
  on_db (db_do (EvExecute req None)
               (fun log => on_execute drv log req None)).

(** [[f(x) for x in l]] where [f] may raise. *)
Fixpoint map_result {A B} (f : A -> result B) (l : list A)
  : result (list B) :=
  match l with
  | [] => Ok []
  | x :: l' =>
      match f x with
      | Ok y => match map_result f l' with
                | Ok ys => Ok (y :: ys)
                | Raise e => Raise e
                end
      | Raise e => Raise e
      end
  end.

(** [DBAPIStorage.get_storage_properties]; [self._connection] and
    [self._table], which the class does not assign, are taken as given. *)
Definition DBAPIStorage_get_storage_properties (connection : Connection)
    (table : string) : M DB (list value) :=
  let drv := driver connection in
  let req := "select * from " +:+ table +:+ " where 0" in
  db_do EvCursor (on_cursor drv) ;;;
  db_do (EvExecute req None) (fun log => on_execute drv log req None) ;;;
  log <- get ;;
  lift_result (map_result (fun prop => py_index prop 0) (description drv log)).

(** What a call of the function [_opener(content)] returns gives: the body
    is [return StringIO(content)], and dbapi.py imports no [StringIO]. *)
Definition dbapi_opener (content : string) : result stream :=
  match lookup_global dbapi_module_globals "StringIO" with
  | Ok _ => Ok content
  | Raise e => Raise e
  end.

End Kalamar.

(** ** What the specification calls things *)

(** The canonical name of a key: [aliases.get(key, key)]. *)
Definition canonical (it : Item) (key : string) : string :=
  default key (aliases it !! key).

(** The storage values and the parsed values of an item. *)
Definition storage_values (s : IState) : gmap string value :=
  heap_dict s.1 (storage_properties (properties s.2)).
Definition parsed_values (s : IState) : gmap string value :=
  dict_items (properties s.2).
Definition loaded (s : IState) : bool := _loaded (properties s.2).

(** The order of the specification: the storage value if there is one, else
    the parsed value if there is one, else the null sentinel. *)
Definition lookup_order (storage parsed : gmap string value) (k : string)
  : value :=
  match storage !! k with
  | Some v => v
  | None => match parsed !! k with
            | Some v => v
            | None => VNone
            end
  end.

(** Invocations of the parse operation and of the parser of the variant. *)
Definition parse_invocations (s : IState) : nat :=
  count_calls CallParseData s.2.
Definition parser_invocations (s : IState) : nat :=
  count_calls CallCustomParseData s.2.

(** How many reads there are among operations. *)
Definition is_read (o : op) : bool :=
  match o with Read _ => true | Write _ _ => false end.
Definition count_reads (ops : list op) : nat :=
  length (List.filter is_read ops).

(** Calls of the opener recorded on an item. *)
Definition opener_invocations (s : IState) : nat :=
  count_calls CallOpener s.2.

(** Whether a condition holds on a line, when it can be evaluated. *)
Definition condition_holds (self : DBAPIStorage) (line : list (value * value))
    (c : condition) : result bool :=
  match row_getitem line (VStr c.1.1) with
  | Ok cell => apply_func self c.1.2 cell c.2
  | Raise e => Raise e
  end.



(** *** Placeholders *)

(** The request made of the part [s0] and then, before each further part, a
    marker: [marker i] before the part of index [i], counted from 0. *)
Fixpoint place_markers (marker : nat -> string) (s0 : string)
    (rest : list string) : string :=
  match rest with
  | [] => s0
  | s :: rest' =>
      s0 +:+ marker 0 +:+ place_markers (fun i => marker (S i)) s rest'
  end.

Fixpoint has_char (c : ascii) (s : string) : bool :=
  match s with
  | EmptyString => false
  | String c' r => Ascii.eqb c' c || has_char c r
  end.

(** ** Items, parsers and adapters to evaluate on *)

(** A parser that finds two properties, and one for malformed content. *)
Definition two_props_parser (_ : heap) (_ : Item)
  : result (gmap string value) :=
  Ok (dict_of_pairs [("title", VStr "T"); ("a", VStr "parsed a")]).
Definition no_props_parser (_ : heap) (_ : Item)
  : result (gmap string value) :=
  Ok ∅.
Definition failing_parser (_ : heap) (_ : Item)
  : result (gmap string value) :=
  Raise (ForeignError "malformed content").
Definition bytes_serializer (_ : heap) (_ : Item) (_ : gmap string value)
  : result string :=
  Ok "bytes".

(** Two items made with no [accessor_properties] given. *)
Definition first_item : Item := Item_init module_heap ∅ (Ok "first") None.
Definition second_item : Item := Item_init module_heap ∅ (Ok "second") None.

(** An item made for a fetched row [{'a': 'storage a', 'id': 7}], a dict of
    its own. *)
Definition row_loc : loc := 2.
Definition row_heap : heap :=
  <[row_loc := dict_of_pairs [("a", VStr "storage a"); ("id", VInt 7)]]>
    module_heap.
Definition row_item : Item :=
  Item_init row_heap (dict_of_pairs [("alias of a", "a")]) (Ok "content")
            (Some row_loc).

(** A driver that accepts everything and has one row for every UPDATE. *)
Definition quiet_driver : Driver :=
  {| on_cursor := fun _ => Ok tt;
     on_execute := fun _ _ _ => Ok tt;
     on_rowcount := fun _ => Ok 1%Z;
     on_fetchmany := fun _ => Ok [];
     description := fun _ => [];
     on_rollback := fun _ => Ok tt;
     on_commit := fun _ => Ok tt;
     on_close := fun _ => Ok tt |}.

Definition adapter (style : string) : DBAPIStorage :=
  {| get_connection := Ok (mkConnection style quiet_driver, "t");
     _get_primary_keys := Ok ["id"];
     config := dict_of_pairs [("content_column", "content")];
     operators := DBAPIStorage_operators;
     operators_from_function :=
       dict_of_pairs [("eq", "="); ("ne", "!="); ("gt", ">"); ("ge", ">=");
                      ("lt", "<"); ("le", "<=")];
     apply_func := fun _ _ _ => Ok true;
     parser_formats := [Some "binary"] |}.

(** The item of the row once it is loaded. *)
Definition loaded_row : IState :=
  (ItemProperties_getitem two_props_parser "title" (row_heap, row_item)).1.

(** A driver whose description has two columns, each entry with a type code
    after the name. *)
Definition two_column_driver : Driver :=
  {| on_cursor := fun _ => Ok tt;
     on_execute := fun _ _ _ => Ok tt;
     on_rowcount := fun _ => Ok 1%Z;
     on_fetchmany := fun _ => Ok [];
     description :=
       fun _ => [VTuple [VStr "id"; VInt 3]; VTuple [VStr "content"; VInt 1]];
     on_rollback := fun _ => Ok tt;
     on_commit := fun _ => Ok tt;
     on_close := fun _ => Ok tt |}.

(** An adapter with the primary keys given, whose function [eq] compares and
    whose other functions hold of nothing. *)
Definition keyed_adapter (pk : list string) : DBAPIStorage :=
  {| get_connection := Ok (mkConnection "qmark" quiet_driver, "t");
     _get_primary_keys := Ok pk;
     config := dict_of_pairs [("content_column", "content")];
     operators := DBAPIStorage_operators;
     operators_from_function :=
       dict_of_pairs [("eq", "="); ("gt", ">"); ("like", "~=")];
     apply_func :=
       fun f a b => match f with
                    | Func "eq" => Ok (value_eqb a b)
                    | _ => Ok false
                    end;
     parser_formats := [Some "binary"] |}.

(** ** Properties of item.py *)

Section ItemFacts.

Variable _custom_parse_data : heap -> Item -> result (gmap string value).
Variable _serialize : heap -> Item -> gmap string value -> result string.

Abbreviation getitem := (ItemProperties_getitem _custom_parse_data).
Abbreviation parse_data := (Item_parse_data _custom_parse_data).
Abbreviation run := (run_ops _custom_parse_data).

(** A write goes to the storage dict, whatever the key; the item itself is
    left as it was. *)
Lemma setitem_storage key v h it :
  ItemProperties_setitem key v (h, it) =
  ((<[storage_properties (properties it) :=
        <[canonical it key := v]>
          (heap_dict h (storage_properties (properties it)))]> h, it),
   Ok tt).
Proof. reflexivity. Qed.

(** A write through one item leaves the storage values of an item that holds
    another dict as they were. *)
Lemma setitem_other_dict key v h it other :
  storage_properties (properties it) <> storage_properties (properties other) ->
  storage_values ((ItemProperties_setitem key v (h, it)).1.1, other) =
  storage_values (h, other).
Proof.
  intros Hne. rewrite setitem_storage. unfold storage_values, heap_dict; simpl.
  rewrite lookup_insert_ne by assumption. reflexivity.
Qed.

(** A read on a loaded item changes nothing and follows the order. *)
Lemma getitem_loaded key s :
  loaded s = true ->
  getitem key s =
  (s, Ok (lookup_order (storage_values s) (parsed_values s)
                       (canonical s.2 key))).
Proof.
  destruct s as [h it]. unfold loaded; simpl. intros Hl.
  unfold ItemProperties_getitem, bind, the_item, the_heap; simpl.
  rewrite Hl; simpl.
  unfold try_except, lift_result, dict_getitem, lookup_order, storage_values,
    parsed_values, canonical, dict_get; simpl.
  destruct (heap_dict h _ !! _); [reflexivity|].
  destruct (dict_items _ !! _); reflexivity.
Qed.

(** What [_parse_data] leaves behind. *)
Lemma parse_data_spec s :
  let r := parse_data s in
  r.1.1 = s.1 /\
  aliases r.1.2 = aliases s.2 /\
  storage_properties (properties r.1.2) = storage_properties (properties s.2) /\
  _loaded (properties r.1.2) = _loaded (properties s.2) /\
  parse_invocations r.1 = S (parse_invocations s) /\
  match r.2 with
  | Ok _ =>
      parser_invocations r.1 = S (parser_invocations s) /\
      _stream r.1.2 <> None /\
      exists props, dict_items (properties r.1.2) =
                    dict_update (dict_items (properties s.2)) props
  | Raise _ =>
      dict_items (properties r.1.2) = dict_items (properties s.2) /\
      (parser_invocations r.1 = S (parser_invocations s) ->
       _stream r.1.2 <> None)
  end.
Proof.
  destruct s as [h it].
  unfold Item_parse_data, Item_open, bind, update_item, modify, the_item,
    lift_result, parse_invocations, parser_invocations, count_calls; simpl.
  destruct (_stream it) as [st|] eqn:Hst; simpl.
  - destruct (_custom_parse_data h _) as [props|e] eqn:Hp; simpl;
      rewrite ?Hst; repeat split; eauto; congruence.
  - destruct (_opener it) as [st|e] eqn:Ho; simpl.
    + destruct (_custom_parse_data h _) as [props|e] eqn:Hp; simpl;
        repeat split; eauto; congruence.
    + rewrite Hst. repeat split; eauto. lia.
Qed.

(** A read on an item not yet loaded: the parse operation runs first; if it
    raises so does the read, else the item is loaded and the read follows the
    order. *)
Lemma getitem_unloaded key s :
  loaded s = false ->
  getitem key s =
  match (parse_data s).2 with
  | Raise e => ((parse_data s).1, Raise e)
  | Ok _ =>
      let s' := ((parse_data s).1.1,
                 set_properties
                   (set_loaded true (properties (parse_data s).1.2))
                   (parse_data s).1.2) in
      (s', Ok (lookup_order (storage_values s') (parsed_values s')
                            (canonical s.2 key)))
  end.
Proof.
  destruct s as [h it]. unfold loaded; simpl. intros Hl.
  pose proof (parse_data_spec (h, it)) as (_ & Hal & _).
  unfold ItemProperties_getitem at 1.
  unfold bind at 1. unfold the_item at 1. simpl. rewrite Hl. simpl.
  unfold bind at 1. unfold bind at 1.
  destruct (parse_data (h, it)) as [[h1 it1] [[]|e]] eqn:Hp; simpl in *;
    [|reflexivity].
  unfold update_item, modify, bind, the_item, the_heap; simpl.
  unfold try_except, lift_result, dict_getitem, lookup_order, storage_values,
    parsed_values, canonical, dict_get; simpl. rewrite Hal.
  destruct (heap_dict h1 _ !! _); [reflexivity|].
  destruct (dict_items _ !! _); reflexivity.
Qed.

(** The state a read leaves, as far as loading goes. *)
Lemma getitem_state key s :
  loaded s = false ->
  let s1 := (getitem key s).1 in
  s1.1 = s.1 /\
  storage_values s1 = storage_values s /\
  parse_invocations s1 = S (parse_invocations s) /\
  parse_invocations s1 = parse_invocations (parse_data s).1 /\
  parser_invocations s1 = parser_invocations (parse_data s).1 /\
  _stream s1.2 = _stream (parse_data s).1.2 /\
  loaded s1 = is_ok (getitem key s).2 /\
  is_ok (getitem key s).2 = is_ok (parse_data s).2 /\
  (is_ok (getitem key s).2 = false -> parsed_values s1 = parsed_values s).
Proof.
  intros Hl. rewrite (getitem_unloaded key s Hl).
  pose proof (parse_data_spec s) as (Hh & Hal & Hsp & Hld & Hn & Hr).
  unfold loaded in Hl. rewrite Hl in Hld.
  destruct (parse_data s) as [[h1 it1] [[]|e]]; simpl in *.
  - destruct Hr as (Hc & Hst & Hd).
    unfold storage_values, parse_invocations, parser_invocations, loaded in *;
      simpl in *.
    rewrite Hh, Hsp. repeat split; try reflexivity; try assumption.
    discriminate.
  - destruct Hr as (Hd & _).
    unfold storage_values, parsed_values, parse_invocations, loaded in *;
      simpl in *.
    rewrite Hh, Hsp. repeat split; auto.
Qed.

(** With the stream open already, [_parse_data] calls the parser. *)
Lemma parse_data_calls_parser s :
  _stream s.2 <> None ->
  parser_invocations (parse_data s).1 = S (parser_invocations s).
Proof.
  destruct s as [h it]; simpl. intros Hst.
  unfold Item_parse_data, Item_open, bind, update_item, modify, the_item,
    lift_result, parser_invocations, count_calls; simpl.
  destruct (_stream it) as [st|]; [|congruence]. simpl.
  destruct (_custom_parse_data h _); reflexivity.
Qed.

(** Once an item is loaded, reads and writes leave it loaded and call
    nothing. *)
Lemma run_loaded ops s :
  loaded s = true ->
  loaded (run ops s) = true /\ calls (run ops s).2 = calls s.2.
Proof.
  revert s. induction ops as [|o ops IH]; intros s Hl; [split; auto|].
  change (run (o :: ops) s) with (run ops (run_op _custom_parse_data o s)).
  assert (loaded (run_op _custom_parse_data o s) = true /\
          calls (run_op _custom_parse_data o s).2 = calls s.2) as [Hl' Hc].
  { destruct o as [key|key v]; unfold run_op.
    - rewrite (getitem_loaded key s Hl). auto.
    - destruct s as [h it]. rewrite setitem_storage. auto. }
  destruct (IH _ Hl') as [? Hc']. split; [assumption|congruence].
Qed.

(** Writes alone leave the item as it was. *)
Lemma run_writes_item (ws : list (string * value)) s :
  (run (map (fun w => Write w.1 w.2) ws) s).2 = s.2.
Proof.
  revert s. induction ws as [|w ws IH]; intros s; [reflexivity|].
  change (run (map (fun w => Write w.1 w.2) (w :: ws)) s)
    with (run (map (fun w => Write w.1 w.2) ws)
              (run_op _custom_parse_data (Write w.1 w.2) s)).
  rewrite IH. destruct s as [h it]. reflexivity.
Qed.

(** C3: a read that gets past loading resolves the normalized key to the
    storage value if there is one (whatever the parsed values hold for that
    key), else to the parsed value if there is one, else to [None]; a read
    raises only what the parse operation raised, so a key in neither store
    raises nothing. *)
Theorem C3_read_follows_lookup_order key s :
  let out := getitem key s in
  let k := canonical s.2 key in
  ((loaded s = true \/ is_ok (parse_data s).2 = true) ->
   match storage_values out.1 !! k with
   | Some v => out.2 = Ok v
   | None => match parsed_values out.1 !! k with
             | Some v => out.2 = Ok v
             | None => out.2 = Ok VNone
             end
   end) /\
  (forall e, out.2 = Raise e ->
             loaded s = false /\ (parse_data s).2 = Raise e).
Proof.
  simpl. destruct (loaded s) eqn:Hl.
  - rewrite (getitem_loaded key s Hl). simpl. split; [|discriminate].
    intros _. unfold lookup_order.
    destruct (storage_values s !! _); [reflexivity|].
    destruct (parsed_values s !! _); reflexivity.
  - rewrite (getitem_unloaded key s Hl).
    destruct ((parse_data s).2) as [[]|e] eqn:Hr; simpl.
    + split; [|discriminate]. intros _. unfold lookup_order.
      match goal with |- context [storage_values ?x !! _] =>
        destruct (storage_values x !! _); [reflexivity|] end.
      match goal with |- context [parsed_values ?x !! _] =>
        destruct (parsed_values x !! _); reflexivity end.
    + split.
      * intros [?|?]; discriminate.
      * intros e' [= ->]. auto.
Qed.

(** C1, amended: on an item just made, whatever is written to it, nothing is
    parsed before the first read; if the first read returns, then after it and
    any further reads and writes the parse operation and the parser were each
    called once and the item is loaded; a write calls nothing. *)
Theorem C1_parsed_once_when_first_read_returns
    h al opener acc (ws : list (string * value)) key ops :
  let s1 := run (map (fun w => Write w.1 w.2) ws)
                (h, Item_init h al opener acc) in
  parse_invocations s1 = 0 /\ parser_invocations s1 = 0 /\
  (is_ok (getitem key s1).2 = true ->
   let s2 := run ops (getitem key s1).1 in
   parse_invocations s2 = 1 /\ parser_invocations s2 = 1 /\
   loaded s2 = true) /\
  (forall k v s, calls (ItemProperties_setitem k v s).1.2 = calls s.2).
Proof.
  simpl.
  set (s0 := (h, Item_init h al opener acc)).
  set (s1 := run _ s0).
  assert (Hit : s1.2 = s0.2) by apply run_writes_item.
  assert (Hl : loaded s1 = false) by (unfold loaded; rewrite Hit; reflexivity).
  assert (Hn : parse_invocations s1 = 0)
    by (unfold parse_invocations; rewrite Hit; reflexivity).
  assert (Hc : parser_invocations s1 = 0)
    by (unfold parser_invocations; rewrite Hit; reflexivity).
  split; [assumption|]. split; [assumption|]. split.
  - intros Hret.
    pose proof (getitem_state key s1 Hl)
      as (_ & _ & Hp & _ & Hq & _ & Hld & Hok & _).
    pose proof (parse_data_spec s1) as (_ & _ & _ & _ & _ & Hr).
    rewrite Hret in Hok, Hld.
    destruct ((parse_data s1).2); [|discriminate]. destruct Hr as [Hr _].
    destruct (run_loaded ops (getitem key s1).1 Hld) as [Hld' Hcalls].
    unfold parse_invocations, parser_invocations, count_calls in *.
    rewrite Hcalls. repeat split; [lia|lia|assumption].
  - intros k v [h' it']. reflexivity.
Qed.

(** C10: when the first read of an item raises, the item stays unloaded and
    its parsed values are what they were; any later read calls the parse
    operation again, and calls the parser of the variant again if that is
    what raised. *)
Theorem C10_failed_parse_is_tried_again key s e :
  loaded s = false ->
  (getitem key s).2 = Raise e ->
  let s1 := (getitem key s).1 in
  loaded s1 = false /\
  parsed_values s1 = parsed_values s /\
  storage_values s1 = storage_values s /\
  parse_invocations s1 = S (parse_invocations s) /\
  (forall key',
     parse_invocations (getitem key' s1).1 = S (S (parse_invocations s))) /\
  (parser_invocations s1 = S (parser_invocations s) ->
   forall key',
     parser_invocations (getitem key' s1).1 = S (S (parser_invocations s))).
Proof.
  intros Hl He. simpl.
  pose proof (getitem_state key s Hl)
    as (_ & Hsv & Hn & _ & Hq & Hst & Hld & Hok & Hpv).
  rewrite He in Hld, Hok, Hpv. simpl in *.
  repeat split; auto.
  - intros key'.
    pose proof (getitem_state key' _ Hld) as (_ & _ & Hn' & _). lia.
  - intros Hc key'.
    pose proof (getitem_state key' _ Hld) as (_ & _ & _ & _ & Hq' & _).
    rewrite Hq'.
    pose proof (parse_data_spec s) as (_ & _ & _ & _ & _ & Hr).
    destruct ((parse_data s).2); [discriminate|].
    destruct Hr as [_ Hopen].
    rewrite parse_data_calls_parser; [lia|].
    rewrite Hst. apply Hopen. congruence.
Qed.

Lemma dict_of_pairs_app {V} (l : list (string * V)) x :
  dict_of_pairs (l ++ [x]) = <[x.1 := x.2]> (dict_of_pairs l).
Proof. unfold dict_of_pairs. rewrite foldl_app. reflexivity. Qed.

(** The dict made of the pairs [(f key, g (f key))]: it holds [g name] under
    every name some key is sent to, and nothing else. *)
Lemma dict_of_named_pairs {V} (f : string -> string) (g : string -> V)
    (keys : list string) name v :
  dict_of_pairs (map (fun key => (f key, g (f key))) keys) !! name = Some v
  <-> (exists key, key ∈ keys /\ f key = name) /\ v = g name.
Proof.
  induction keys as [|k keys IH] using rev_ind.
  - unfold dict_of_pairs; simpl. rewrite lookup_empty. split; [discriminate|].
    intros [(key & Hin & _) _]. inversion Hin.
  - rewrite map_app. simpl map. rewrite dict_of_pairs_app. cbn [fst snd].
    destruct (decide (f k = name)) as [<-|Hne].
    + rewrite lookup_insert_eq. split.
      * intros [= <-]. split; [|reflexivity].
        exists k. split; [|reflexivity]. apply elem_of_app. right. left.
      * intros [_ ->]. reflexivity.
    + rewrite lookup_insert_ne by assumption. rewrite IH. split.
      * intros [(key & Hin & Hk) ->]. split; [|reflexivity].
        exists key. split; [|assumption]. apply elem_of_app. left. assumption.
      * intros [(key & Hin & Hk) ->]. split; [|reflexivity].
        apply elem_of_app in Hin as [Hin|Hin].
        -- exists key. split; assumption.
        -- apply list_elem_of_singleton in Hin. subst key. contradiction.
Qed.

Lemma elem_of_dict_keys {V} (d : gmap string V) key :
  key ∈ dict_keys d <-> is_Some (d !! key).
Proof.
  unfold dict_keys. rewrite list_elem_of_fmap. split.
  - intros ([k v] & -> & Hin). apply elem_of_map_to_list in Hin. eauto.
  - intros [v Hv]. exists (key, v). split; [reflexivity|].
    apply elem_of_map_to_list. assumption.
Qed.

(** On a loaded item the pairs are made by reads that change nothing. *)
Lemma serialize_pairs_loaded keys s :
  loaded s = true ->
  serialize_pairs _custom_parse_data keys s =
  (s, Ok (map (fun key =>
                 (canonical s.2 key,
                  lookup_order (storage_values s) (parsed_values s)
                               (canonical s.2 key))) keys)).
Proof.
  intros Hl. induction keys as [|key keys IH]; [reflexivity|].
  simpl serialize_pairs. unfold bind at 1. unfold the_item at 1.
  cbv iota beta. unfold bind at 1. rewrite (getitem_loaded key s Hl).
  cbv iota beta. unfold bind at 1. rewrite IH. reflexivity.
Qed.

(** C8, amended: on an item that is loaded, or has no parsed values yet,
    [serialize] builds its map without changing the state; the map holds,
    under every canonical name that a key of the parsed values is an alias
    of, the value a read of that name gives (the storage value first), and
    holds nothing else: the keys of the storage values are not walked. *)
Theorem C8_serialize_map_covers_parsed_keys s :
  loaded s = true \/ parsed_values s = ∅ ->
  exists props,
    serialize_props _custom_parse_data s = (s, Ok props) /\
    (Item_serialize _custom_parse_data _serialize s).1 = s /\
    forall name v,
      props !! name = Some v <->
      (exists key, is_Some (parsed_values s !! key) /\
                   canonical s.2 key = name) /\
      v = lookup_order (storage_values s) (parsed_values s) name.
Proof.
  intros Hs.
  assert (serialize_pairs _custom_parse_data
            (dict_keys (dict_items (properties s.2))) s =
          (s, Ok (map (fun key =>
                         (canonical s.2 key,
                          lookup_order (storage_values s) (parsed_values s)
                                       (canonical s.2 key)))
                      (dict_keys (parsed_values s))))) as Hpairs.
  { destruct (loaded s) eqn:Hl.
    - apply serialize_pairs_loaded, Hl.
    - destruct Hs as [?|He]; [discriminate|].
      unfold parsed_values in *. rewrite He.
      unfold dict_keys. rewrite map_to_list_empty. reflexivity. }
  eexists. split; [|split].
  - unfold serialize_props, bind, the_item. rewrite Hpairs. reflexivity.
  - unfold Item_serialize, serialize_props, bind, the_item.
    rewrite Hpairs. reflexivity.
  - intros name v. rewrite dict_of_named_pairs.
    split; intros [(key & Hin & Hk) ->]; (split; [|reflexivity]);
      exists key; (split; [|assumption]); apply elem_of_dict_keys; assumption.
Qed.

End ItemFacts.

(** ** Properties of dbapi.py *)

Lemma list_index_map {A B} (f : A -> B) (l : list A) i :
  list_index (map f l) i =
  match list_index l i with
  | Ok x => Ok (f x)
  | Raise e => Raise e
  end.
Proof.
  unfold list_index. rewrite length_map.
  destruct (py_position (length l) i) as [j|e]; [|reflexivity].
  rewrite list_lookup_fmap. destruct (l !! j); reflexivity.
Qed.

Lemma py_index_str s i v : py_index (VStr s) i = Ok v -> exists c, v = VStr c.
Proof.
  simpl. destruct (list_index (chars s) i) as [c|e]; [|discriminate].
  intros [= <-]. eauto.
Qed.

(** Handed a string, the loop body raises before it reaches its [try]. *)
Lemma push_condition_str self ending name L log :
  exists e, push_condition self ending (VStr name) L log = (log, Raise e).
Proof.
  unfold push_condition, bind, lift_result.
  destruct (py_index (VStr name) 1) as [v|e] eqn:Hi; [|eauto].
  destruct (py_index_str _ _ _ Hi) as [c ->]. simpl. eauto.
Qed.

Section Storage.

Variable _custom_parse_data : heap -> Item -> result (gmap string value).
Variable _serialize : heap -> Item -> gmap string value -> result string.

(** [serialize] raises, whatever the item. *)
Lemma serialize_raises s :
  is_ok (Item_serialize _custom_parse_data _serialize s).2 = false.
Proof.
  unfold Item_serialize. unfold bind at 1.
  destruct (serialize_props _ _) as [s' [props|e]]; reflexivity.
Qed.

(** C4: [save] raises for every item and adapter, and nothing has been done
    on the connection by then: the call of [item.serialize()], which comes
    before the UPDATE is built, never returns. *)
Theorem C4_save_raises_before_any_statement self s :
  is_ok (DBAPIStorage_save _custom_parse_data _serialize self s).2 = false /\
  (DBAPIStorage_save _custom_parse_data _serialize self s).1.2 = s.2.
Proof.
  destruct (DBAPIStorage_save _ _ self s) as [s1 r] eqn:Hsave. simpl.
  unfold DBAPIStorage_save in Hsave.
  unfold bind at 1 in Hsave. unfold lift_result at 1 in Hsave.
  destruct (get_connection self) as [ct|e];
    [|injection Hsave as <- <-; split; reflexivity].
  unfold bind at 1 in Hsave. unfold lift_result at 1 in Hsave.
  destruct (_get_primary_keys self) as [pk|e];
    [|injection Hsave as <- <-; split; reflexivity].
  unfold bind at 1 in Hsave. unfold get at 1 in Hsave.
  unfold bind at 1 in Hsave. unfold on_item at 1 in Hsave.
  pose proof (serialize_raises s.1) as Hs.
  destruct (Item_serialize _ _ s.1) as [s' [content|e]]; simpl in Hs, Hsave;
    [discriminate|]. injection Hsave as <- <-; split; reflexivity.
Qed.

End Storage.

(** C5: [_storage_search] raises for every list of conditions, and nothing
    has been done on the connection by then: with no condition
    [conditions[-1]] raises, and with some the loop runs over the three
    components of the last condition, the first of which is the name. *)
Theorem C5_search_raises_for_every_condition_list fuel self conditions log :
  is_ok (DBAPIStorage_storage_search fuel self conditions log).2 = false /\
  (DBAPIStorage_storage_search fuel self conditions log).1 = log.
Proof.
  destruct (DBAPIStorage_storage_search fuel self conditions log)
    as [log1 r] eqn:Hsearch. simpl.
  unfold DBAPIStorage_storage_search in Hsearch.
  unfold bind at 1 in Hsearch. unfold lift_result at 1 in Hsearch.
  destruct (get_connection self) as [ct|e];
    [|injection Hsearch as <- <-; split; reflexivity].
  unfold bind at 1 in Hsearch. unfold lift_result at 1 in Hsearch.
  rewrite list_index_map in Hsearch.
  destruct (list_index conditions (-1)) as [[[name f] v]|e];
    [|injection Hsearch as <- <-; split; reflexivity].
  unfold bind at 1 in Hsearch. unfold lift_result at 1 in Hsearch.
  simpl py_iter in Hsearch. cbv iota beta in Hsearch.
  unfold bind at 1 in Hsearch. simpl push_conditions in Hsearch.
  unfold bind at 1 in Hsearch.
  match type of Hsearch with context [push_condition ?a ?b (VStr ?n) ?L log] =>
    destruct (push_condition_str a b n L log) as [e He] end.
  rewrite He in Hsearch. injection Hsearch as <- <-; split; reflexivity.
Qed.

Lemma append_cons c s t : String c s +:+ t = String c (s +:+ t).
Proof. reflexivity. Qed.

Lemma append_empty t : "" +:+ t = t.
Proof. reflexivity. Qed.

Lemma append_assoc s t u : (s +:+ t) +:+ u = s +:+ (t +:+ u).
Proof.
  induction s as [|c s IH]; [reflexivity|].
  rewrite !append_cons, IH. reflexivity.
Qed.

Lemma split_no_sep sep s : has_char sep s = false -> split sep s = [s].
Proof.
  induction s as [|c r IH]; simpl; [reflexivity|].
  intros [Hc Hr]%orb_false_elim. rewrite Hc, (IH Hr). reflexivity.
Qed.

Lemma split_app_sep sep s t :
  has_char sep s = false ->
  split sep (s +:+ String sep t) = s :: split sep t.
Proof.
  induction s as [|c r IH].
  - intros _. rewrite append_empty. simpl. rewrite Ascii.eqb_refl.
    reflexivity.
  - simpl has_char. intros [Hc Hr]%orb_false_elim.
    rewrite append_cons. simpl. rewrite Hc, (IH Hr). reflexivity.
Qed.

Lemma place_markers_cons marker c p ps :
  place_markers marker (String c p) ps = String c (place_markers marker p ps).
Proof. destruct ps; reflexivity. Qed.

(** Every request is made of parts free of the marker. *)
Lemma request_parts (request : string) :
  exists s0 rest,
    request = place_markers (fun _ => "?") s0 rest /\
    has_char "?" s0 = false /\
    forallb (fun s => negb (has_char "?" s)) rest = true.
Proof.
  induction request as [|c r (s0 & rest & Hr & H0 & Hrest)].
  - exists "", []. repeat split.
  - destruct (Ascii.eqb c "?") eqn:Hc.
    + apply Ascii.eqb_eq in Hc. subst c. exists "", (s0 :: rest).
      simpl. rewrite H0, Hrest. repeat split.
      rewrite append_empty. change ("?" +:+ ?x) with (String "?" x).
      congruence.
    + exists (String c s0), rest. simpl. rewrite Hc, H0.
      rewrite place_markers_cons. repeat split; [congruence|assumption].
Qed.

Lemma split_place_markers s0 rest :
  has_char "?" s0 = false ->
  forallb (fun s => negb (has_char "?" s)) rest = true ->
  split "?" (place_markers (fun _ => "?") s0 rest) = s0 :: rest.
Proof.
  revert s0. induction rest as [|s rest IH]; intros s0 H0 Hrest; simpl.
  - apply split_no_sep, H0.
  - simpl in Hrest. apply andb_true_iff in Hrest as [Hs Hrest].
    apply negb_true_iff in Hs.
    change ("?" +:+ ?x) with (String "?" x).
    rewrite split_app_sep by assumption. f_equal. apply IH; assumption.
Qed.

Lemma join_cons_app a b l : join ((a +:+ b) :: l) = a +:+ join (b :: l).
Proof.
  unfold join. destruct l as [|x l]; simpl; [reflexivity|].
  apply append_assoc.
Qed.

Lemma join_parts marker s0 rest :
  join (s0 :: imap (fun i part => marker i +:+ part) rest) =
  place_markers marker s0 rest.
Proof.
  revert marker s0. induction rest as [|s rest IH]; intros marker s0;
    [reflexivity|].
  simpl place_markers. rewrite <- IH.
  change (imap (fun i part => marker i +:+ part) (s :: rest))
    with ((marker 0 +:+ s)
            :: imap (fun i part => marker (S i) +:+ part) rest).
  rewrite <- join_cons_app. reflexivity.
Qed.

Lemma str_nat_inj i j : str_nat i = str_nat j -> i = j.
Proof.
  unfold str_nat. intros H.
  assert (Nat.to_uint i = Nat.to_uint j) as Hu.
  { apply (f_equal NilEmpty.uint_of_string) in H.
    rewrite !NilEmpty.usu in H. congruence. }
  apply (f_equal Nat.of_uint) in Hu.
  rewrite !DecimalNat.Unsigned.of_to in Hu. exact Hu.
Qed.

(** The dict made of a parameter list holds the parameter of index [i] under
    ["name" ++ str(i)] and nothing else. *)
Lemma named_parameters_lookup (ps : list value) k v :
  dict_of_pairs (imap (fun i v => ("name" +:+ str_nat i, v)) ps) !! k = Some v
  <-> exists i, k = "name" +:+ str_nat i /\ ps !! i = Some v.
Proof.
  revert k v. induction ps as [|p ps IH] using rev_ind; intros k v.
  - simpl. unfold dict_of_pairs; simpl. rewrite lookup_empty. split.
    + discriminate.
    + intros (i & _ & Hi). rewrite lookup_nil in Hi. discriminate.
  - rewrite imap_app. cbn [imap]. rewrite dict_of_pairs_app.
    cbn [fst snd]. rewrite Nat.add_0_r.
    destruct (decide (k = "name" +:+ str_nat (length ps))) as [->|Hne].
    + rewrite lookup_insert_eq. split.
      * intros [= ->]. exists (length ps). split; [reflexivity|].
        rewrite lookup_app_r, Nat.sub_diag by lia. reflexivity.
      * intros (i & Hi & Hv). injection Hi as Hi. apply str_nat_inj in Hi.
        subst i. rewrite lookup_app_r, Nat.sub_diag in Hv by lia.
        simpl in Hv. congruence.
    + rewrite lookup_insert_ne by congruence. rewrite IH. split.
      * intros (i & Hi & Hv). exists i. split; [assumption|].
        rewrite lookup_app_l; [assumption|]. eapply lookup_lt_Some, Hv.
      * intros (i & Hi & Hv). exists i. split; [assumption|].
        destruct (decide (i < length ps)) as [Hlt|Hge].
        -- rewrite lookup_app_l in Hv; assumption.
        -- rewrite lookup_app_r in Hv by lia.
           destruct (i - length ps) as [|n] eqn:Hd; simpl in Hv.
           ++ assert (i = length ps) by lia. subst i. contradiction.
           ++ rewrite lookup_nil in Hv. discriminate.
Qed.

(** C6: for a request whose parts hold no marker, [_format_request] gives
    back request and parameters as they are under [qmark]; under [numeric] it
    puts [:i], counted from 1, for the i-th marker; under [named] it puts
    [:name(i-1)] and makes of the parameters the dict with [v_i] under
    [name i], counted from 0, and nothing else. *)
Theorem C6_format_request_rewrites_markers {S} self conn table
    (s0 : string) (rest : list string) (ps : list value) (st : S) :
  get_connection self = Ok (conn, table) ->
  has_char "?" s0 = false ->
  forallb (fun s => negb (has_char "?" s)) rest = true ->
  let neutral := place_markers (fun _ => "?") s0 rest in
  let out := DBAPIStorage_format_request self neutral ps st in
  (paramstyle conn = "qmark" -> out = (st, Ok (neutral, PList ps))) /\
  (paramstyle conn = "numeric" ->
   out = (st, Ok (place_markers (fun i => ":" +:+ str_nat (i + 1)) s0 rest,
                  PList ps))) /\
  (paramstyle conn = "named" ->
   exists d,
     out = (st, Ok (place_markers (fun i => ":name" +:+ str_nat i) s0 rest,
                    PDict d)) /\
     forall k v, d !! k = Some v <->
                 exists i, k = "name" +:+ str_nat i /\ ps !! i = Some v).
Proof.
  intros Hc H0 Hrest. simpl.
  unfold DBAPIStorage_format_request, bind, lift_result. rewrite Hc. simpl.
  rewrite (split_place_markers s0 rest H0 Hrest).
  split; [|split].
  - intros ->. reflexivity.
  - intros ->. simpl. unfold new_request_parts. simpl.
    unfold ret. rewrite join_parts. reflexivity.
  - intros ->. simpl. unfold new_request_parts. simpl.
    unfold ret. rewrite join_parts. eexists. split; [reflexivity|].
    apply named_parameters_lookup.
Qed.

(** C7: [_format_request] raises [NotImplementedError] under [format] and
    under [pyformat]; under a style that is none of the five it raises too,
    but what it raises is the [NameError] of the bare name
    [UnsupportedParameterStyleError]. *)
Theorem C7_unknown_style_raises_NameError {S} self conn table request ps
    (st : S) :
  get_connection self = Ok (conn, table) ->
  let out := DBAPIStorage_format_request self request ps st in
  (paramstyle conn = "format" \/ paramstyle conn = "pyformat" ->
   out = (st, Raise NotImplementedError)) /\
  (paramstyle conn <> "qmark" -> paramstyle conn <> "numeric" ->
   paramstyle conn <> "named" -> paramstyle conn <> "format" ->
   paramstyle conn <> "pyformat" ->
   out = (st, Raise (NameError "UnsupportedParameterStyleError"))).
Proof.
  intros Hc. simpl.
  unfold DBAPIStorage_format_request, bind, lift_result. rewrite Hc. simpl.
  split.
  - intros [-> | ->]; reflexivity.
  - intros H1 H2 H3 H4 H5.
    apply String.eqb_neq in H1, H2, H3, H4, H5.
    rewrite H1, H2, H3, H4, H5. reflexivity.
Qed.

(** ** The theorems at work on concrete items and adapters *)

(** C2: a write always lands in the storage dict: after [set(key, v)] the
    storage values hold [v] under the normalized key and the parsed values
    are what they were, also when the key was in neither; so for the item of
    the row [{'a': 'storage a'}], writing ["b"]. *)
Theorem C2_write_of_absent_key_lands_in_storage :
  (forall key v s,
     let s' := (ItemProperties_setitem key v s).1 in
     storage_values s' !! canonical s.2 key = Some v /\
     parsed_values s' = parsed_values s /\
     loaded s' = loaded s) /\
  (let s := (row_heap, row_item) in
   let s' := (ItemProperties_setitem "b" (VStr "B") s).1 in
   storage_values s !! "b" = None /\
   storage_values s' !! "b" = Some (VStr "B") /\
   parsed_values s' !! "b" = None).
Proof.
  split.
  - intros key v [h it]. rewrite setitem_storage. simpl.
    unfold storage_values, heap_dict; simpl.
    rewrite lookup_insert_eq; simpl. rewrite lookup_insert_eq.
    repeat split.
  - repeat split.
Qed.

(** C9: two items made without storage properties hold the same dict: what
    is written through the first is read through the second. *)
Theorem C9_write_seen_through_other_item :
  let h' := (ItemProperties_setitem "x" (VInt 1) (module_heap, first_item)).1.1
  in
  first_item <> second_item /\
  storage_properties (properties first_item) =
  storage_properties (properties second_item) /\
  (ItemProperties_getitem no_props_parser "x" (module_heap, second_item)).2
  = Ok VNone /\
  (ItemProperties_getitem no_props_parser "x" (h', second_item)).2
  = Ok (VInt 1).
Proof.
  simpl. split; [discriminate|]. repeat split.
Qed.

(** C1 as it is stated fails on an item whose content does not parse: two
    reads call the parse operation, and the parser, twice. *)
Lemma C1_two_reads_parse_twice :
  let s := run_ops failing_parser [Read "a"; Read "b"]
                   (module_heap, first_item) in
  parse_invocations s = 2 /\ parser_invocations s = 2 /\
  parse_invocations s <> 1.
Proof. repeat split. discriminate. Qed.

(** The amended C1 on the item of a row: one write, the first read, then
    two reads and a write. *)
Lemma C1_witness :
  let s1 := run_ops two_props_parser [Write "a" (VInt 1)]
                    (row_heap, row_item) in
  is_ok (ItemProperties_getitem two_props_parser "a" s1).2 = true /\
  parse_invocations s1 = 0 /\
  parse_invocations
    (run_ops two_props_parser [Read "title"; Write "b" VNone; Read "a"]
             (ItemProperties_getitem two_props_parser "a" s1).1) = 1.
Proof.
  pose proof (C1_parsed_once_when_first_read_returns two_props_parser
                row_heap (dict_of_pairs [("alias of a", "a")]) (Ok "content")
                (Some row_loc) [("a", VInt 1)] "a"
                [Read "title"; Write "b" VNone; Read "a"])
    as (H0 & _ & H1 & _).
  split; [reflexivity|]. split; [exact H0|].
  exact (proj1 (H1 eq_refl)).
Defined.

(** C3 on the item of a row whose parser finds ["a"] too: the storage value
    wins under the alias, ["title"] comes from the parsed values, a key in
    neither store gives [None]. *)
Lemma C3_witness :
  let s := (row_heap, row_item) in
  is_ok (Item_parse_data two_props_parser s).2 = true /\
  (ItemProperties_getitem two_props_parser "alias of a" s).2
  = Ok (VStr "storage a") /\
  (ItemProperties_getitem two_props_parser "title" s).2 = Ok (VStr "T") /\
  (ItemProperties_getitem two_props_parser "absent" s).2 = Ok VNone.
Proof.
  split; [reflexivity|]. split; [|split].
  - exact (proj1 (C3_read_follows_lookup_order two_props_parser "alias of a"
                    (row_heap, row_item)) (or_intror eq_refl)).
  - exact (proj1 (C3_read_follows_lookup_order two_props_parser "title"
                    (row_heap, row_item)) (or_intror eq_refl)).
  - exact (proj1 (C3_read_follows_lookup_order two_props_parser "absent"
                    (row_heap, row_item)) (or_intror eq_refl)).
Defined.

(** C10 on an item whose content does not parse. *)
Lemma C10_witness :
  let s := (module_heap, first_item) in
  let s1 := (ItemProperties_getitem failing_parser "a" s).1 in
  loaded s = false /\
  (ItemProperties_getitem failing_parser "a" s).2
  = Raise (ForeignError "malformed content") /\
  loaded s1 = false /\
  parser_invocations s1 = 1 /\
  parser_invocations (ItemProperties_getitem failing_parser "b" s1).1 = 2.
Proof.
  pose proof (C10_failed_parse_is_tried_again failing_parser "a"
                (module_heap, first_item) (ForeignError "malformed content")
                eq_refl eq_refl)
    as (H1 & _ & _ & _ & _ & H2).
  split; [reflexivity|]. split; [reflexivity|]. split; [exact H1|].
  split; [reflexivity|]. exact (H2 eq_refl "b").
Defined.

(** C6 on [SELECT * FROM t WHERE a=? AND b=?] with two parameters. *)
Lemma C6_witness :
  DBAPIStorage_format_request (adapter "qmark")
    "SELECT * FROM t WHERE a=? AND b=?" [VStr "v0"; VStr "v1"] tt
  = (tt, Ok ("SELECT * FROM t WHERE a=? AND b=?",
             PList [VStr "v0"; VStr "v1"])) /\
  DBAPIStorage_format_request (adapter "numeric")
    "SELECT * FROM t WHERE a=? AND b=?" [VStr "v0"; VStr "v1"] tt
  = (tt, Ok ("SELECT * FROM t WHERE a=:1 AND b=:2",
             PList [VStr "v0"; VStr "v1"])) /\
  exists d,
    DBAPIStorage_format_request (adapter "named")
      "SELECT * FROM t WHERE a=? AND b=?" [VStr "v0"; VStr "v1"] tt
    = (tt, Ok ("SELECT * FROM t WHERE a=:name0 AND b=:name1", PDict d)) /\
    d !! "name0" = Some (VStr "v0") /\ d !! "name1" = Some (VStr "v1").
Proof.
  split; [|split].
  - exact (proj1 (C6_format_request_rewrites_markers (adapter "qmark")
             (mkConnection "qmark" quiet_driver) "t"
             "SELECT * FROM t WHERE a=" [" AND b="; ""]
             [VStr "v0"; VStr "v1"] tt eq_refl eq_refl eq_refl) eq_refl).
  - exact (proj1 (proj2 (C6_format_request_rewrites_markers
             (adapter "numeric") (mkConnection "numeric" quiet_driver) "t"
             "SELECT * FROM t WHERE a=" [" AND b="; ""]
             [VStr "v0"; VStr "v1"] tt eq_refl eq_refl eq_refl)) eq_refl).
  - destruct (proj2 (proj2 (C6_format_request_rewrites_markers
             (adapter "named") (mkConnection "named" quiet_driver) "t"
             "SELECT * FROM t WHERE a=" [" AND b="; ""]
             [VStr "v0"; VStr "v1"] tt eq_refl eq_refl eq_refl)) eq_refl)
      as (d & Hout & Hd).
    exists d. split; [exact Hout|]. split.
    + apply Hd. exists 0. split; reflexivity.
    + apply Hd. exists 1. split; reflexivity.
Defined.

(** C7 under [pyformat] and under a style no DB-API knows. *)
Lemma C7_witness :
  DBAPIStorage_format_request (adapter "pyformat") "a=?" [VInt 1] tt
  = (tt, Raise NotImplementedError) /\
  DBAPIStorage_format_request (adapter "dollar") "a=?" [VInt 1] tt
  = (tt, Raise (NameError "UnsupportedParameterStyleError")).
Proof.
  split.
  - exact (proj1 (C7_unknown_style_raises_NameError (adapter "pyformat")
             (mkConnection "pyformat" quiet_driver) "t" "a=?" [VInt 1] tt
             eq_refl) (or_intror eq_refl)).
  - apply (proj2 (C7_unknown_style_raises_NameError (adapter "dollar")
             (mkConnection "dollar" quiet_driver) "t" "a=?" [VInt 1] tt
             eq_refl)); discriminate.
Defined.

(** C8 as it is stated fails on an item made for the row
    [{'a': 'storage a', 'id': 7}] once it is loaded: ['id'] is a storage
    value, the map built holds nothing under it, and no result comes back. *)
Lemma C8_storage_key_left_out :
  let s := (ItemProperties_getitem two_props_parser "title"
              (row_heap, row_item)).1 in
  storage_values s !! "id" = Some (VInt 7) /\
  (exists props,
     (serialize_props two_props_parser s).2 = Ok props /\
     props !! "id" = None) /\
  is_ok (Item_serialize two_props_parser bytes_serializer s).2 = false.
Proof.
  split; [reflexivity|]. split; [|reflexivity].
  eexists. split; reflexivity.
Qed.

(** The amended C8 on the loaded item of a row. *)
Lemma C8_witness :
  let s := (ItemProperties_getitem two_props_parser "title"
              (row_heap, row_item)).1 in
  loaded s = true /\
  exists props,
    serialize_props two_props_parser s = (s, Ok props) /\
    props !! "a" = Some (VStr "storage a") /\
    props !! "title" = Some (VStr "T").
Proof.
  split; [reflexivity|].
  destruct (C8_serialize_map_covers_parsed_keys two_props_parser
              bytes_serializer
              (ItemProperties_getitem two_props_parser "title"
                 (row_heap, row_item)).1 (or_introl eq_refl))
    as (props & Hprops & _ & Hmap).
  exists props. split; [exact Hprops|]. split.
  - apply Hmap. split; [|reflexivity].
    exists "a". split; [|reflexivity]. exists (VStr "parsed a").
    reflexivity.
  - apply Hmap. split; [|reflexivity].
    exists "title". split; [|reflexivity]. exists (VStr "T"). reflexivity.
Defined.

(** ** Further properties of item.py *)

Section ItemUse.

Variable _custom_parse_data : heap -> Item -> result (gmap string value).
Variable _serialize : heap -> Item -> gmap string value -> result string.

Abbreviation getitem := (ItemProperties_getitem _custom_parse_data).
Abbreviation parse_data := (Item_parse_data _custom_parse_data).
Abbreviation run := (run_ops _custom_parse_data).

(** [_parse_data], case by case. *)
Lemma parse_data_cases s :
  parse_data s =
  let it0 := record_call CallParseData s.2 in
  let parse it1 :=
    match _custom_parse_data s.1 (record_call CallCustomParseData it1) with
    | Ok props =>
        ((s.1,
          set_properties
            (set_dict_items (dict_update (dict_items (properties it1)) props)
                            (properties it1))
            (record_call CallCustomParseData it1)), Ok tt)
    | Raise e => ((s.1, record_call CallCustomParseData it1), Raise e)
    end in
  match _stream s.2 with
  | Some _ => parse it0
  | None =>
      match _opener s.2 with
      | Ok c => parse (set_stream (Some c) (record_call CallOpener it0))
      | Raise e => ((s.1, record_call CallOpener it0), Raise e)
      end
  end.
Proof.
  destruct s as [h it].
  unfold Item_parse_data, Item_open, bind, update_item, modify, the_item,
    lift_result; simpl.
  destruct (_stream it) as [st|]; simpl.
  - destruct (_custom_parse_data h _); reflexivity.
  - destruct (_opener it) as [c|e]; simpl; [|reflexivity].
    destruct (_custom_parse_data h _); reflexivity.
Qed.

(** The item a read leaves, from the one [_parse_data] leaves. *)
Lemma getitem_item key s :
  loaded s = false ->
  (getitem key s).1 =
  if is_ok (parse_data s).2
  then ((parse_data s).1.1,
        set_properties (set_loaded true (properties (parse_data s).1.2))
                       (parse_data s).1.2)
  else (parse_data s).1.
Proof.
  intros Hl. rewrite (getitem_unloaded _custom_parse_data key s Hl).
  destruct ((parse_data s).2) as [[]|e]; reflexivity.
Qed.

(** What no read changes: the heap, and of the item the opener, the aliases,
    the storage dict it holds and the snapshot of it. *)
Lemma getitem_frame key s :
  let s' := (getitem key s).1 in
  s'.1 = s.1 /\
  _opener s'.2 = _opener s.2 /\
  aliases s'.2 = aliases s.2 /\
  storage_properties (properties s'.2) = storage_properties (properties s.2) /\
  storage_properties_old (properties s'.2) =
  storage_properties_old (properties s.2).
Proof.
  simpl. destruct (loaded s) eqn:Hl.
  - rewrite (getitem_loaded _custom_parse_data key s Hl). repeat split.
  - rewrite (getitem_item key s Hl), parse_data_cases.
    destruct s as [h it]. simpl.
    destruct (_stream it); simpl.
    + destruct (_custom_parse_data _ _); repeat apply conj; reflexivity.
    + destruct (_opener it) eqn:Ho; simpl;
        [|rewrite Ho; repeat apply conj; reflexivity].
      destruct (_custom_parse_data _ _); simpl; rewrite Ho;
        repeat apply conj; reflexivity.
Qed.

(** A read that returns gives what the order gives on the storage values as
    they were before it and the parsed values as they are after it. *)
Lemma getitem_returns key s :
  is_ok (getitem key s).2 = true ->
  (getitem key s).2 =
  Ok (lookup_order (storage_values s) (parsed_values (getitem key s).1)
                   (canonical s.2 key)).
Proof.
  destruct (loaded s) eqn:Hl.
  - rewrite (getitem_loaded _custom_parse_data key s Hl). reflexivity.
  - pose proof (getitem_state _custom_parse_data key s Hl) as (_ & Hsv & _).
    intros Hok. rewrite <- Hsv. clear Hsv. revert Hok.
    rewrite (getitem_unloaded _custom_parse_data key s Hl).
    destruct ((parse_data s).2) as [[]|e]; [reflexivity|discriminate].
Qed.

(** X1: what is written under a key is what a read under any key of the same
    canonical name returns, if it returns: the parsed values cannot hide
    it. *)
Theorem write_then_read key1 key2 v s :
  canonical s.2 key1 = canonical s.2 key2 ->
  let s1 := (ItemProperties_setitem key1 v s).1 in
  is_ok (getitem key2 s1).2 = true ->
  (getitem key2 s1).2 = Ok v.
Proof.
  destruct s as [h it]. cbn [fst snd]. intros Hk.
  rewrite setitem_storage. cbn [fst snd]. intros Hok.
  rewrite (getitem_returns _ _ Hok). unfold storage_values, heap_dict; simpl.
  rewrite lookup_insert_eq; simpl. unfold lookup_order.
  rewrite <- Hk, lookup_insert_eq. reflexivity.
Qed.

(** X2: on a loaded item a write under one canonical name leaves what a read
    under another returns as it was. *)
Theorem write_keeps_other_keys key1 key2 v s :
  loaded s = true ->
  canonical s.2 key1 <> canonical s.2 key2 ->
  (getitem key2 (ItemProperties_setitem key1 v s).1).2 = (getitem key2 s).2.
Proof.
  destruct s as [h it]. intros Hl Hk.
  rewrite setitem_storage. simpl fst.
  rewrite !getitem_loaded by exact Hl. simpl.
  unfold storage_values, heap_dict; simpl. rewrite lookup_insert_eq; simpl.
  unfold lookup_order. rewrite lookup_insert_ne by exact Hk. reflexivity.
Qed.

(** Reads and writes leave the snapshot alone. *)
Lemma run_keeps_snapshot ops s :
  storage_properties_old (properties (run ops s).2) =
  storage_properties_old (properties s.2).
Proof.
  revert s. induction ops as [|o ops IH]; intros s; [reflexivity|].
  change (run (o :: ops) s) with (run ops (run_op _custom_parse_data o s)).
  rewrite IH. destruct o as [key|key v]; unfold run_op.
  - apply getitem_frame.
  - destruct s as [h it]. reflexivity.
Qed.

(** X3: whatever is read and written afterwards, [storage_properties_old]
    still holds the storage values the item was made with. *)
Theorem old_storage_values_stay_reachable h al opener acc ops :
  let s0 := (h, Item_init h al opener acc) in
  storage_properties_old (properties (run ops s0).2) = storage_values s0.
Proof. simpl. rewrite run_keeps_snapshot. reflexivity. Qed.

(** X4: once an item is loaded, reads and writes never change the item
    object again (its parsed values, its stream, its calls): only the storage
    dict changes. *)
Theorem loaded_item_is_final ops s :
  loaded s = true -> (run ops s).2 = s.2.
Proof.
  revert s. induction ops as [|o ops IH]; intros s Hl; [reflexivity|].
  change (run (o :: ops) s) with (run ops (run_op _custom_parse_data o s)).
  assert (Hit : (run_op _custom_parse_data o s).2 = s.2).
  { destruct o as [key|key v]; unfold run_op.
    - rewrite (getitem_loaded _custom_parse_data key s Hl). reflexivity.
    - destruct s as [h it]. reflexivity. }
  rewrite IH; [exact Hit|]. unfold loaded. rewrite Hit. exact Hl.
Qed.

(** X5: reads never write: after any number of reads the heap, and so the
    storage values of every item, are what they were. *)
Theorem reads_leave_storage keys s :
  (run (map Read keys) s).1 = s.1 /\
  storage_values (run (map Read keys) s) = storage_values s.
Proof.
  revert s. induction keys as [|key keys IH]; intros s; [split; reflexivity|].
  change (run (map Read (key :: keys)) s)
    with (run (map Read keys) (getitem key s).1).
  destruct (IH (getitem key s).1) as [Hh Hsv].
  pose proof (getitem_frame key s) as (Hh' & _ & _ & Hsp & _).
  split; [congruence|]. rewrite Hsv. unfold storage_values.
  rewrite Hh', Hsp. reflexivity.
Qed.

(** One read on an item not loaded, by what the stream, the opener and the
    parser are. *)
Lemma getitem_step key s :
  loaded s = false ->
  let s' := (getitem key s).1 in
  parse_invocations s' = S (parse_invocations s) /\
  match _stream s.2, _opener s.2 with
  | None, Raise e =>
      (getitem key s).2 = Raise e /\ loaded s' = false /\
      _stream s'.2 = None /\
      opener_invocations s' = S (opener_invocations s) /\
      parser_invocations s' = parser_invocations s
  | None, Ok c =>
      _stream s'.2 = Some c /\
      opener_invocations s' = S (opener_invocations s) /\
      parser_invocations s' = S (parser_invocations s) /\
      loaded s' = is_ok (getitem key s).2
  | Some c, _ =>
      _stream s'.2 = Some c /\
      opener_invocations s' = opener_invocations s /\
      parser_invocations s' = S (parser_invocations s) /\
      loaded s' = is_ok (getitem key s).2
  end.
Proof.
  intros Hl. simpl.
  pose proof (getitem_state _custom_parse_data key s Hl)
    as (_ & _ & Hn & _ & _ & _ & Hld & _).
  split; [exact Hn|]. clear Hn. revert Hld.
  rewrite (getitem_unloaded _custom_parse_data key s Hl), parse_data_cases.
  destruct s as [h it]. unfold loaded, opener_invocations, parser_invocations,
    count_calls in *. simpl in *.
  destruct (_stream it) as [c|] eqn:Hst; simpl.
  - destruct (_opener it); destruct (_custom_parse_data _ _); simpl;
      intros Hld; repeat apply conj; try reflexivity; assumption.
  - destruct (_opener it) as [c|e]; simpl.
    + destruct (_custom_parse_data _ _); simpl; intros Hld;
        repeat apply conj; try reflexivity; assumption.
    + intros Hld. repeat apply conj; try reflexivity; assumption.
Qed.

(** With its stream open, an item never has its opener called again. *)
Lemma run_stream_open ops s :
  _stream s.2 <> None ->
  opener_invocations (run ops s) = opener_invocations s.
Proof.
  revert s. induction ops as [|o ops IH]; intros s Hst; [reflexivity|].
  change (run (o :: ops) s) with (run ops (run_op _custom_parse_data o s)).
  destruct o as [key|key v]; unfold run_op.
  - destruct (loaded s) eqn:Hl.
    + rewrite (getitem_loaded _custom_parse_data key s Hl). apply IH, Hst.
    + pose proof (getitem_step key s Hl) as [_ Hstep]. simpl in Hstep.
      destruct (_stream s.2) as [c|]; [|congruence].
      destruct Hstep as (Hst' & Hn & _).
      rewrite IH; [exact Hn|]. rewrite Hst'. discriminate.
  - destruct s as [h it]. rewrite setitem_storage.
    match goal with |- context [run ops ?s'] => rewrite (IH s' Hst) end.
    reflexivity.
Qed.

Lemma run_opener_ok ops s c :
  _stream s.2 = None -> loaded s = false -> _opener s.2 = Ok c ->
  opener_invocations (run ops s) =
  opener_invocations s + (if existsb is_read ops then 1 else 0).
Proof.
  revert s. induction ops as [|o ops IH]; intros s Hst Hl Ho;
    [simpl; lia|].
  change (run (o :: ops) s) with (run ops (run_op _custom_parse_data o s)).
  destruct o as [key|key v]; unfold run_op; simpl existsb.
  - pose proof (getitem_step key s Hl) as [_ Hstep]. simpl in Hstep.
    rewrite Hst, Ho in Hstep. destruct Hstep as (Hst' & Hn & _).
    rewrite run_stream_open; [lia|]. rewrite Hst'. discriminate.
  - destruct s as [h it]. rewrite setitem_storage.
    match goal with |- context [run ops ?s'] =>
      rewrite (IH s' Hst Hl Ho) end. reflexivity.
Qed.

(** X6: on an item whose opener returns, the opener is called once if there
    is a read among the operations done on it and not at all if there is
    none, however many reads there are and whether the content parses or
    not. *)
Theorem opener_called_at_most_once h al c acc ops :
  opener_invocations (run ops (h, Item_init h al (Ok c) acc)) =
  if existsb is_read ops then 1 else 0.
Proof.
  rewrite (run_opener_ok ops _ c); reflexivity.
Qed.

Lemma run_opener_raises ops s e :
  _stream s.2 = None -> loaded s = false -> _opener s.2 = Raise e ->
  let s' := run ops s in
  _stream s'.2 = None /\ loaded s' = false /\ _opener s'.2 = Raise e /\
  parser_invocations s' = parser_invocations s /\
  opener_invocations s' = opener_invocations s + count_reads ops.
Proof.
  revert s. induction ops as [|o ops IH]; intros s Hst Hl Ho.
  - simpl. unfold count_reads; simpl. repeat split; auto.
  - change (run (o :: ops) s) with (run ops (run_op _custom_parse_data o s)).
    destruct o as [key|key v]; unfold run_op.
    + pose proof (getitem_step key s Hl) as [_ Hstep]. simpl in Hstep.
      pose proof (getitem_frame key s) as (_ & Ho' & _).
      rewrite Hst, Ho in Hstep. destruct Hstep as (_ & Hl' & Hst' & Hn & Hp).
      destruct (IH (getitem key s).1 Hst' Hl') as (H1 & H2 & H3 & H4 & H5);
        [congruence|].
      cbv zeta. repeat apply conj; try assumption; try congruence.
      rewrite H5, Hn. unfold count_reads; simpl. lia.
    + destruct s as [h it]. rewrite setitem_storage.
      cbv zeta. cbn [fst snd].
      match goal with |- context [run ops ?s'] =>
        destruct (IH s' Hst Hl Ho) as (H1 & H2 & H3 & H4 & H5) end.
      repeat apply conj; [exact H1|exact H2|exact H3|exact H4|exact H5].
Qed.

(** X7: on an item whose opener raises, every read raises what the opener
    raised; the item is never loaded, its parser never called, and the opener
    is called once for every read. *)
Theorem opener_that_raises_is_called_again h al e acc ops key :
  let s := run ops (h, Item_init h al (Raise e) acc) in
  (getitem key s).2 = Raise e /\
  loaded s = false /\
  parser_invocations s = 0 /\
  opener_invocations s = count_reads ops.
Proof.
  destruct (run_opener_raises ops (h, Item_init h al (Raise e) acc) e
              eq_refl eq_refl eq_refl) as (Hst & Hl & Ho & Hp & Hn).
  simpl. repeat split; try assumption.
  pose proof (getitem_step key _ Hl) as [_ Hstep]. simpl in Hstep.
  rewrite Hst, Ho in Hstep. apply Hstep.
Qed.

(** X8: an item made with the opener that [_storage_search] makes for a row
    cannot be read: every read raises the [NameError] of [StringIO], and the
    item is never loaded. *)
Theorem row_opener_never_opens h al content acc ops key :
  let s := run ops (h, Item_init h al (dbapi_opener content) acc) in
  (getitem key s).2 = Raise (NameError "StringIO") /\
  loaded s = false /\
  parser_invocations s = 0.
Proof.
  destruct (run_opener_raises ops
              (h, Item_init h al (dbapi_opener content) acc)
              (NameError "StringIO") eq_refl eq_refl eq_refl)
    as (Hst & Hl & Ho & Hp & Hn).
  simpl. repeat split; try assumption.
  pose proof (getitem_step key _ Hl) as [_ Hstep]. simpl in Hstep.
  rewrite Hst, Ho in Hstep. apply Hstep.
Qed.

Lemma run_parser_fails ops s :
  (forall h it, is_ok (_custom_parse_data h it) = false) ->
  loaded s = false ->
  (_stream s.2 <> None \/ exists c, _opener s.2 = Ok c) ->
  let s' := run ops s in
  loaded s' = false /\
  parse_invocations s' = parse_invocations s + count_reads ops /\
  parser_invocations s' = parser_invocations s + count_reads ops.
Proof.
  intros Hfail. revert s. induction ops as [|o ops IH]; intros s Hl Hopen.
  - simpl. unfold count_reads; simpl. repeat split; auto.
  - change (run (o :: ops) s) with (run ops (run_op _custom_parse_data o s)).
    destruct o as [key|key v]; unfold run_op.
    + pose proof (getitem_step key s Hl) as [Hn Hstep]. simpl in Hn, Hstep.
      assert (Hraise : is_ok (getitem key s).2 = false).
      { pose proof (getitem_state _custom_parse_data key s Hl)
          as (_ & _ & _ & _ & _ & _ & _ & Hok & _).
        rewrite Hok, parse_data_cases. destruct s as [h it]; simpl.
        destruct (_stream it); simpl.
        - specialize (Hfail h (record_call CallCustomParseData
                                 (record_call CallParseData it))).
          destruct (_custom_parse_data _ _); [discriminate|reflexivity].
        - destruct (_opener it) as [c|e]; simpl; [|reflexivity].
          match goal with |- context [_custom_parse_data h ?x] =>
            specialize (Hfail h x); destruct (_custom_parse_data h x) end;
            [discriminate|reflexivity]. }
      assert (Hs : _stream (getitem key s).1.2 <> None /\
                   parser_invocations (getitem key s).1 =
                   S (parser_invocations s) /\
                   loaded (getitem key s).1 = false).
      { destruct (_stream s.2) as [c|] eqn:Hst.
        - destruct Hstep as (-> & _ & Hp & Hld).
          repeat split; [discriminate|exact Hp|congruence].
        - destruct Hopen as [?|[c Ho]]; [congruence|]. rewrite Ho in Hstep.
          destruct Hstep as (-> & _ & Hp & Hld).
          repeat split; [discriminate|exact Hp|congruence]. }
      destruct Hs as (Hst' & Hp & Hl').
      destruct (IH (getitem key s).1 Hl' (or_introl Hst')) as (H1 & H2 & H3).
      cbv zeta. repeat apply conj; [assumption| |].
      * rewrite H2, Hn. unfold count_reads; simpl. lia.
      * rewrite H3, Hp. unfold count_reads; simpl. lia.
    + destruct s as [h it]. rewrite setitem_storage.
      cbv zeta. cbn [fst snd].
      match goal with |- context [run ops ?s'] =>
        destruct (IH s' Hl Hopen) as (H1 & H2 & H3) end.
      repeat apply conj; [exact H1|exact H2|exact H3].
Qed.

(** X9: on an item whose opener returns and whose parser raises whatever it
    is given (so the parser of [Item] itself), the parse operation and the
    parser are called once for every read, and the item is never loaded. *)
Theorem unparsable_item_is_parsed_at_every_read h al c acc ops :
  (forall h it, is_ok (_custom_parse_data h it) = false) ->
  let s := run ops (h, Item_init h al (Ok c) acc) in
  loaded s = false /\
  parse_invocations s = count_reads ops /\
  parser_invocations s = count_reads ops.
Proof.
  intros Hfail.
  apply (run_parser_fails ops (h, Item_init h al (Ok c) acc) Hfail eq_refl).
  right. exists c. reflexivity.
Qed.

(** X10: on an item just made, [write(v)] parses nothing, and the [read()]
    after it, if it returns, returns [v], whatever content the parser finds,
    having parsed once. *)
Theorem atom_write_then_read h al opener acc v :
  let s1 := (AtomItem_write v (h, Item_init h al opener acc)).1 in
  parse_invocations s1 = 0 /\
  (is_ok (AtomItem_read _custom_parse_data s1).2 = true ->
   (AtomItem_read _custom_parse_data s1).2 = Ok v /\
   parse_invocations (AtomItem_read _custom_parse_data s1).1 = 1).
Proof.
  unfold AtomItem_write, AtomItem_read. rewrite setitem_storage.
  cbn [fst snd]. split; [reflexivity|]. intros Hok.
  rewrite (getitem_returns _ _ Hok). split.
  - unfold storage_values, heap_dict, lookup_order; simpl.
    rewrite lookup_insert_eq; simpl. rewrite lookup_insert_eq. reflexivity.
  - match goal with |- parse_invocations (getitem _ ?s).1 = _ =>
      pose proof (getitem_state _custom_parse_data "_content" s eq_refl)
        as (_ & _ & Hn & _) end.
    exact Hn.
Qed.

(** [serialize] leaves an item that is loaded, or has no parsed values, as
    it is. *)
Lemma serialize_keeps_state s :
  loaded s = true \/ parsed_values s = ∅ ->
  (Item_serialize _custom_parse_data _serialize s).1 = s /\
  is_ok (Item_serialize _custom_parse_data _serialize s).2 = false.
Proof.
  intros Hs.
  assert (exists pairs,
            serialize_pairs _custom_parse_data
              (dict_keys (dict_items (properties s.2))) s = (s, Ok pairs))
    as [pairs Hpairs].
  { destruct (loaded s) eqn:Hl.
    - eexists. apply serialize_pairs_loaded, Hl.
    - destruct Hs as [?|He]; [discriminate|].
      unfold parsed_values in He. rewrite He.
      unfold dict_keys. rewrite map_to_list_empty. eexists. reflexivity. }
  unfold Item_serialize, serialize_props, bind, the_item.
  rewrite Hpairs. split; reflexivity.
Qed.

(** X11: a [save] of an item that is loaded, or has no parsed values, leaves
    everything as it was: the item, its storage values (no content column is
    set, no [_content] deleted) and the connection. *)
Theorem failed_save_changes_nothing self s :
  loaded s.1 = true \/ parsed_values s.1 = ∅ ->
  (DBAPIStorage_save _custom_parse_data _serialize self s).1 = s.
Proof.
  intros Hs.
  destruct (DBAPIStorage_save _ _ self s) as [s1 r] eqn:Hsave. simpl.
  unfold DBAPIStorage_save in Hsave.
  unfold bind at 1 in Hsave. unfold lift_result at 1 in Hsave.
  destruct (get_connection self) as [ct|e]; [|congruence].
  unfold bind at 1 in Hsave. unfold lift_result at 1 in Hsave.
  destruct (_get_primary_keys self) as [pk|e]; [|congruence].
  unfold bind at 1 in Hsave. unfold get at 1 in Hsave.
  unfold bind at 1 in Hsave. unfold on_item at 1 in Hsave.
  destruct (serialize_keeps_state s.1 Hs) as [Hst Hr].
  destruct (Item_serialize _ _ s.1) as [s' [content|e]]; simpl in *;
    [discriminate|]. injection Hsave as <- <-. rewrite Hst.
  destruct s; reflexivity.
Qed.

Lemma run_keeps_unloaded_empty ops s :
  (loaded s = false -> parsed_values s = ∅) ->
  loaded (run ops s) = false -> parsed_values (run ops s) = ∅.
Proof.
  revert s. induction ops as [|o ops IH]; intros s Hinv; [exact Hinv|].
  change (run (o :: ops) s) with (run ops (run_op _custom_parse_data o s)).
  apply IH. destruct o as [key|key v]; unfold run_op.
  - destruct (loaded s) eqn:Hl.
    + rewrite (getitem_loaded _custom_parse_data key s Hl). cbn [fst].
      rewrite Hl. discriminate.
    + pose proof (getitem_state _custom_parse_data key s Hl)
        as (_ & _ & _ & _ & _ & _ & Hld & _ & Hpv).
      intros Hl'. rewrite Hl' in Hld. rewrite Hpv; [auto|congruence].
  - destruct s as [h it]. rewrite setitem_storage. exact Hinv.
Qed.

(** X21: on an item used through reads and writes only, the parsed values
    are empty until it is loaded: no write ever lands in them. *)
Theorem no_parsed_values_before_loading h al opener acc ops :
  let s := run ops (h, Item_init h al opener acc) in
  loaded s = false -> parsed_values s = ∅.
Proof.
  apply run_keeps_unloaded_empty. reflexivity.
Qed.

End ItemUse.

(** X12: [aliases_rev] is not the table from canonical names back to
    aliases: it has the aliases for keys, and sends each to its position
    among the keys of the alias table. *)
Theorem aliases_rev_holds_positions h al opener acc :
  let it := Item_init h al opener acc in
  (forall k i, aliases_rev it !! k = Some i <-> dict_keys al !! i = Some k) /\
  (forall k, is_Some (aliases_rev it !! k) <-> is_Some (al !! k)).
Proof.
  simpl.
  assert (Hgen : forall l : list string, NoDup l -> forall k i,
            dict_of_pairs (imap (fun a b => (b, a)) l) !! k = Some i
            <-> l !! i = Some k).
  { induction l as [|x l IH] using rev_ind; intros Hnd k i.
    - unfold dict_of_pairs; simpl. rewrite lookup_empty, lookup_nil.
      split; discriminate.
    - apply NoDup_app in Hnd as (Hnd & Hx & _).
      assert (x ∉ l) as Hxl by (intros Hin; apply (Hx x Hin); left).
      rewrite imap_app. cbn [imap]. rewrite dict_of_pairs_app. cbn [fst snd].
      rewrite Nat.add_0_r.
      destruct (decide (k = x)) as [->|Hne].
      + rewrite lookup_insert_eq. split.
        * intros [= <-]. rewrite lookup_app_r, Nat.sub_diag by lia.
          reflexivity.
        * intros Hi. destruct (decide (i < length l)) as [Hlt|Hge].
          -- rewrite lookup_app_l in Hi by assumption.
             exfalso. apply Hxl. eapply list_elem_of_lookup_2, Hi.
          -- apply lookup_lt_Some in Hi. rewrite length_app in Hi.
             simpl in Hi. f_equal. lia.
      + rewrite lookup_insert_ne by congruence. rewrite (IH Hnd). split.
        * intros Hi. rewrite lookup_app_l; [assumption|].
          eapply lookup_lt_Some, Hi.
        * intros Hi. destruct (decide (i < length l)) as [Hlt|Hge].
          -- rewrite lookup_app_l in Hi; assumption.
          -- rewrite lookup_app_r in Hi by lia.
             destruct (i - length l); simpl in Hi; [congruence|].
             rewrite lookup_nil in Hi. discriminate. }
  assert (Hnd : NoDup (dict_keys al)) by apply NoDup_fst_map_to_list.
  split.
  - intros k i. apply Hgen, Hnd.
  - intros k. split.
    + intros [i Hi]. apply (Hgen _ Hnd) in Hi.
      apply elem_of_dict_keys. eapply list_elem_of_lookup_2, Hi.
    + intros Hk. apply elem_of_dict_keys, list_elem_of_lookup in Hk as [i Hi].
      exists i. apply (Hgen _ Hnd), Hi.
Qed.

Lemma format_among (formats : list (option string)) (f : string) :
  existsb (fun g => match g with
                    | Some g => value_eqb (VStr g) (VStr f)
                    | None => value_eqb VNone (VStr f)
                    end) formats = true
  <-> Some f ∈ formats.
Proof.
  induction formats as [|g formats IH]; simpl.
  - split; [discriminate|]. intros H. inversion H.
  - rewrite orb_true_iff, IH, elem_of_cons. split.
    + intros [Hg|Hin]; [left|right; assumption].
      destruct g as [g|]; [|discriminate].
      apply String.eqb_eq in Hg. congruence.
    + intros [<-|Hin]; [left|right; assumption].
      apply String.eqb_refl.
Qed.

(** X13: [get_item_parser] asked for a format by its name instantiates a
    parser class if one has that format, and raises [ValueError], with
    nothing instantiated, if none has. *)
Theorem get_item_parser_by_format {S} formats f (instantiate : M S Item) s :
  (Some f ∈ formats ->
   Item_get_item_parser formats (VStr f) instantiate s = instantiate s) /\
  (Some f ∉ formats ->
   Item_get_item_parser formats (VStr f) instantiate s =
   (s, Raise ValueError)).
Proof.
  unfold Item_get_item_parser. split; intros Hf.
  - apply format_among in Hf. rewrite Hf. reflexivity.
  - destruct (existsb _ formats) eqn:He; [|reflexivity].
    apply format_among in He. contradiction.
Qed.

(** X14: no item ever comes out of a fetched line: [search_line] gives back
    the items it was given or raises, and does nothing on the connection. *)
Theorem search_line_adds_no_item self descr remaining line items_ok log :
  let out := search_line self descr remaining line items_ok log in
  out.1 = log /\ (out.2 = Ok items_ok \/ is_ok out.2 = false).
Proof.
  unfold search_line, Item_get_item_parser, bind, lift_result, raise, ret.
  destruct (row_dict descr line) as [l|e]; simpl; [|auto].
  destruct (line_ok self l remaining) as [[]|e]; simpl; [|auto..].
  destruct (dict_getitem (config self) "content_column") as [cc|e]; simpl;
    [|auto].
  destruct (row_getitem l (VStr cc)) as [c|e]; simpl; [|auto].
  destruct (existsb _ (parser_formats self)); simpl; auto.
Qed.

(** X15: a line passes the deferred conditions exactly when each of them
    holds on it, as long as each can be evaluated; and the first condition
    that does not hold settles it, whatever comes after it. *)
Theorem line_ok_is_conjunction self line :
  (forall conds (holds : list bool),
     map (condition_holds self line) conds = map Ok holds ->
     line_ok self line (map condition_tuple conds) = Ok (forallb id holds)) /\
  (forall c rest,
     condition_holds self line c = Ok false ->
     line_ok self line (condition_tuple c :: rest) = Ok false).
Proof.
  split.
  - induction conds as [|[[name f] v] conds IH]; intros [|b holds] Hh;
      try discriminate; [reflexivity|].
    simpl in Hh. injection Hh as Hc Hh. unfold condition_holds in Hc.
    simpl in Hc. simpl.
    destruct (row_getitem line (VStr name)) as [cell|e]; [|discriminate].
    rewrite Hc. destruct b; simpl; [apply IH, Hh|reflexivity].
  - intros [[name f] v] rest Hc. unfold condition_holds in Hc. simpl in Hc.
    simpl. destruct (row_getitem line (VStr name)) as [cell|e];
      [|discriminate].
    rewrite Hc. reflexivity.
Qed.

(** X16: the statements for the last condition write [name=?] whatever the
    operator of the condition is, as long as the adapter supports it, and
    bind the value; a condition whose operator the adapter does not support
    is deferred, with request and parameters as they were. *)
Theorem pushed_condition_is_an_equality self ending name f v op L log :
  operators_from_function self !! f = Some op ->
  (is_Some (operators self !! op) ->
   push_condition self ending (condition_tuple (name, Func f, v)) L log =
   (log, Ok (mkSearchLocals (request L +:+ name +:+ ending)
                            (parameters L ++ [v])
                            (remaining_conditions L)))) /\
  (operators self !! op = None ->
   push_condition self ending (condition_tuple (name, Func f, v)) L log =
   (log, Ok (mkSearchLocals (request L) (parameters L)
               (remaining_conditions L
                  ++ [condition_tuple (name, Func f, v)])))).
Proof.
  intros Hf.
  unfold push_condition, bind, lift_result, try_except, ret; simpl.
  unfold dict_getitem. rewrite Hf. split.
  - intros [sql ->]. reflexivity.
  - intros ->. reflexivity.
Qed.


Lemma list_index_head {A} (x : A) l : list_index (x :: l) 0 = Ok x.
Proof.
  unfold list_index, py_position.
  change (0 <? 0)%Z with false. cbv iota.
  assert ((0 <? Z.of_nat (length (x :: l)))%Z = true) as ->
    by (apply Z.ltb_lt; simpl length; lia).
  reflexivity.
Qed.

Lemma list_index_last {A} (l : list A) x : list_index (l ++ [x]) (-1) = Ok x.
Proof.
  unfold list_index, py_position. rewrite length_app. simpl length.
  change (-1 <? 0)%Z with true. cbv iota.
  assert ((0 <=? -1 + Z.of_nat (length l + 1))%Z = true) as ->
    by (apply Z.leb_le; lia).
  assert ((-1 + Z.of_nat (length l + 1) <? Z.of_nat (length l + 1))%Z = true)
    as -> by (apply Z.ltb_lt; lia).
  simpl andb. cbv iota.
  replace (Z.to_nat (-1 + Z.of_nat (length l + 1))) with (length l) by lia.
  rewrite lookup_app_r, Nat.sub_diag by lia. reflexivity.
Qed.

(** X18: [get_storage_properties] executes the one zero-row SELECT, leaves
    the cursor open, and returns the first component of every entry of the
    description, in the order of the description. *)
Theorem storage_properties_are_column_names connection table log
    (cols : list (value * list value)) :
  let drv := driver connection in
  let req := "select * from " +:+ table +:+ " where 0" in
  let log' := EvExecute req None :: EvCursor :: log in
  on_cursor drv log = Ok tt ->
  on_execute drv (EvCursor :: log) req None = Ok tt ->
  description drv log' = map (fun c => VTuple (c.1 :: c.2)) cols ->
  DBAPIStorage_get_storage_properties connection table log =
  (log', Ok (map fst cols)).
Proof.
  simpl. intros Hc He Hd.
  unfold DBAPIStorage_get_storage_properties, bind, db_do, get, lift_result.
  rewrite Hc, He, Hd. f_equal. clear.
  induction cols as [|[name rest] cols IH]; [reflexivity|].
  cbn [map map_result py_index fst snd]. rewrite list_index_head.
  cbn [map] in IH. rewrite IH. reflexivity.
Qed.

(** ** [remove] *)

Section Remove.

Variable _custom_parse_data : heap -> Item -> result (gmap string value).

Abbreviation getitem := (ItemProperties_getitem _custom_parse_data).
Abbreviation remove := (DBAPIStorage_remove _custom_parse_data).






Lemma but_last_cons {A} (x y : A) l :
  but_last (x :: y :: l) = x :: but_last (y :: l).
Proof. reflexivity. Qed.

(** X20: [remove] raises with nothing done on the connection when the
    adapter has no primary key ([IndexError]), and when the item is not yet
    loaded and its content does not parse (the exception of the parse
    operation): to build the statement it reads the item. *)
Theorem remove_raises_before_the_statement self (s : SaveState) :
  is_ok (get_connection self) = true ->
  (_get_primary_keys self = Ok [] -> remove self s = (s, Raise IndexError)) /\
  (forall pk e,
     _get_primary_keys self = Ok pk -> pk <> [] ->
     loaded s.1 = false ->
     (Item_parse_data _custom_parse_data s.1).2 = Raise e ->
     (remove self s).2 = Raise e /\ (remove self s).1.2 = s.2).
Proof.
  intros Hc. destruct (get_connection self) as [ct|] eqn:Hct; [|discriminate].
  split.
  - intros Hpk. unfold DBAPIStorage_remove, bind, lift_result.
    rewrite Hct, Hpk. reflexivity.
  - intros pk e Hpk Hne Hl He.
    assert (Hread : forall key, on_item (getitem key) s =
                      (((Item_parse_data _custom_parse_data s.1).1, s.2),
                       Raise e)).
    { intros key. unfold on_item.
      rewrite (getitem_unloaded _custom_parse_data key s.1 Hl), He.
      reflexivity. }
    destruct (remove self s) as [s1 r] eqn:Hrm. simpl.
    unfold DBAPIStorage_remove in Hrm.
    unfold bind at 1 in Hrm. unfold lift_result at 1 in Hrm.
    rewrite Hct in Hrm. cbn [fst snd] in Hrm.
    unfold bind at 1 in Hrm. unfold lift_result at 1 in Hrm.
    rewrite Hpk in Hrm.
    destruct pk as [|k0 [|k1 pk]]; [contradiction| |].
    + simpl but_last in Hrm. simpl extend_with_properties in Hrm.
      unfold bind at 1 in Hrm. unfold ret at 1 in Hrm.
      unfold bind at 1 in Hrm. unfold lift_result at 1 in Hrm.
      pose proof (list_index_last [] k0) as Hlast. simpl app in Hlast.
      rewrite Hlast in Hrm.
      unfold bind at 1 in Hrm. rewrite Hread in Hrm.
      injection Hrm as <- <-. split; reflexivity.
    + rewrite but_last_cons in Hrm. simpl extend_with_properties in Hrm.
      unfold bind at 1 in Hrm. unfold bind at 1 in Hrm.
      rewrite Hread in Hrm. injection Hrm as <- <-. split; reflexivity.
Qed.

End Remove.

(** ** The further properties at work *)

(** Writing under an alias and reading under the canonical name, on the item
    of a row before it is loaded. *)
Lemma write_then_read_witness :
  canonical row_item "alias of a" = canonical row_item "a" /\
  (ItemProperties_getitem two_props_parser "a"
     (ItemProperties_setitem "alias of a" (VInt 1) (row_heap, row_item)).1).2
  = Ok (VInt 1).
Proof.
  split; [reflexivity|].
  exact (write_then_read two_props_parser "alias of a" "a" (VInt 1)
           (row_heap, row_item) eq_refl eq_refl).
Defined.

Lemma write_keeps_other_keys_witness :
  loaded loaded_row = true /\
  (ItemProperties_getitem two_props_parser "title"
     (ItemProperties_setitem "a" (VInt 1) loaded_row).1).2
  = Ok (VStr "T").
Proof.
  split; [reflexivity|].
  rewrite (write_keeps_other_keys two_props_parser "a" "title" (VInt 1)
             loaded_row eq_refl); [reflexivity|discriminate].
Defined.

Lemma loaded_item_is_final_witness :
  (run_ops two_props_parser
     [Write "title" (VStr "other"); Read "a"; Write "new" VNone]
     loaded_row).2 = loaded_row.2.
Proof.
  exact (loaded_item_is_final two_props_parser
           [Write "title" (VStr "other"); Read "a"; Write "new" VNone]
           loaded_row eq_refl).
Defined.

Lemma unparsable_item_witness :
  let s := run_ops failing_parser [Read "a"; Write "a" VNone; Read "b"]
                   (module_heap, first_item) in
  loaded s = false /\ parse_invocations s = 2 /\ parser_invocations s = 2.
Proof.
  exact (unparsable_item_is_parsed_at_every_read failing_parser module_heap
           ∅ "first" None [Read "a"; Write "a" VNone; Read "b"]
           (fun _ _ => eq_refl)).
Defined.

(** The parser finds a [_content] of its own; the one written is read. *)
Lemma atom_write_then_read_witness :
  let parser := fun (_ : heap) (_ : Item) =>
                  Ok (dict_of_pairs [("_content", VStr "parsed")]) in
  let s1 := (AtomItem_write (VStr "written") (module_heap, first_item)).1 in
  is_ok (AtomItem_read parser s1).2 = true /\
  (AtomItem_read parser s1).2 = Ok (VStr "written") /\
  parse_invocations (AtomItem_read parser s1).1 = 1.
Proof.
  split; [reflexivity|].
  exact (proj2 (atom_write_then_read
                  (fun _ _ => Ok (dict_of_pairs [("_content", VStr "parsed")]))
                  module_heap ∅ (Ok "first") None (VStr "written")) eq_refl).
Defined.

Lemma failed_save_witness :
  loaded loaded_row = true /\
  (DBAPIStorage_save two_props_parser bytes_serializer (adapter "qmark")
     (loaded_row, [])).1 = (loaded_row, []).
Proof.
  split; [reflexivity|].
  exact (failed_save_changes_nothing two_props_parser bytes_serializer
           (adapter "qmark") (loaded_row, []) (or_introl eq_refl)).
Defined.

(** The two cases of the docstring of [get_item_parser]. *)
Lemma get_item_parser_witness :
  let made : M unit Item := ret first_item in
  Item_get_item_parser [Some "binary"; None] (VStr "binary") made tt
  = (tt, Ok first_item) /\
  Item_get_item_parser [Some "binary"; None] (VStr "I do not exist") made tt
  = (tt, Raise ValueError).
Proof.
  split.
  - apply (proj1 (get_item_parser_by_format [Some "binary"; None] "binary"
                    (ret first_item) tt)).
    left.
  - apply (proj2 (get_item_parser_by_format [Some "binary"; None]
                    "I do not exist" (ret first_item) tt)).
    intros H. apply elem_of_cons in H as [H|H]; [discriminate|].
    apply list_elem_of_singleton in H. discriminate.
Defined.

Lemma line_ok_witness :
  let line := [(VStr "artist", VStr "muse"); (VStr "year", VInt 2001)] in
  let artist := ("artist", Func "eq", VStr "muse") in
  let year := ("year", Func "eq", VInt 1999) in
  line_ok (keyed_adapter ["id"]) line (map condition_tuple [artist; year])
  = Ok false /\
  line_ok (keyed_adapter ["id"]) line (map condition_tuple [artist])
  = Ok true /\
  line_ok (keyed_adapter ["id"]) line [condition_tuple year; VInt 0]
  = Ok false.
Proof.
  split; [|split].
  - exact (proj1 (line_ok_is_conjunction (keyed_adapter ["id"])
             [(VStr "artist", VStr "muse"); (VStr "year", VInt 2001)])
             [("artist", Func "eq", VStr "muse");
              ("year", Func "eq", VInt 1999)]
             [true; false] eq_refl).
  - exact (proj1 (line_ok_is_conjunction (keyed_adapter ["id"])
             [(VStr "artist", VStr "muse"); (VStr "year", VInt 2001)])
             [("artist", Func "eq", VStr "muse")] [true] eq_refl).
  - exact (proj2 (line_ok_is_conjunction (keyed_adapter ["id"])
             [(VStr "artist", VStr "muse"); (VStr "year", VInt 2001)])
             ("year", Func "eq", VInt 1999) [VInt 0] eq_refl).
Defined.

(** A condition with [>] is written with [=]; one with an operator the
    adapter does not know is deferred. *)
Lemma pushed_condition_witness :
  let L := mkSearchLocals "SELECT * FROM t WHERE " [] [] in
  push_condition (keyed_adapter ["id"]) "=?;"
    (condition_tuple ("year", Func "gt", VInt 2000)) L []
  = ([], Ok (mkSearchLocals "SELECT * FROM t WHERE year=?;" [VInt 2000] []))
  /\
  push_condition (keyed_adapter ["id"]) "=?;"
    (condition_tuple ("title", Func "like", VStr "a.*")) L []
  = ([], Ok (mkSearchLocals "SELECT * FROM t WHERE " []
               [condition_tuple ("title", Func "like", VStr "a.*")])).
Proof.
  split.
  - apply (proj1 (pushed_condition_is_an_equality (keyed_adapter ["id"])
                    "=?;" "year" "gt" (VInt 2000) ">"
                    (mkSearchLocals "SELECT * FROM t WHERE " [] []) []
                    eq_refl)).
    exists ">". reflexivity.
  - apply (proj2 (pushed_condition_is_an_equality (keyed_adapter ["id"])
                    "=?;" "title" "like" (VStr "a.*") "~="
                    (mkSearchLocals "SELECT * FROM t WHERE " [] []) []
                    eq_refl)).
    reflexivity.
Defined.

Lemma storage_properties_witness :
  DBAPIStorage_get_storage_properties
    (mkConnection "qmark" two_column_driver) "t" []
  = ([EvExecute "select * from t where 0" None; EvCursor],
     Ok [VStr "id"; VStr "content"]).
Proof.
  exact (storage_properties_are_column_names
           (mkConnection "qmark" two_column_driver) "t" []
           [(VStr "id", [VInt 3]); (VStr "content", [VInt 1])]
           eq_refl eq_refl eq_refl).
Defined.


Lemma remove_raises_witness :
  DBAPIStorage_remove failing_parser (keyed_adapter [])
    ((module_heap, first_item), [])
  = (((module_heap, first_item), []), Raise IndexError) /\
  (DBAPIStorage_remove failing_parser (keyed_adapter ["id"])
     ((module_heap, first_item), [])).2
  = Raise (ForeignError "malformed content").
Proof.
  split.
  - exact (proj1 (remove_raises_before_the_statement failing_parser
                    (keyed_adapter []) ((module_heap, first_item), [])
                    eq_refl) eq_refl).
  - apply (proj2 (remove_raises_before_the_statement failing_parser
                    (keyed_adapter ["id"]) ((module_heap, first_item), [])
                    eq_refl) ["id"] (ForeignError "malformed content"));
      [reflexivity|discriminate|reflexivity|reflexivity].
Defined.

Lemma no_parsed_values_witness :
  let s := run_ops failing_parser [Write "b" (VInt 2); Read "b"]
                   (row_heap, row_item) in
  loaded s = false /\ parsed_values s = ∅ /\
  storage_values s !! "b" = Some (VInt 2).
Proof.
  split; [reflexivity|]. split; [|reflexivity].
  exact (no_parsed_values_before_loading failing_parser row_heap
           (dict_of_pairs [("alias of a", "a")]) (Ok "content")
           (Some row_loc) [Write "b" (VInt 2); Read "b"] eq_refl).
Defined.
